(** * Portfolio/CV API: a shallow embedding of [main.py] and [schemas.py]

    The HTTP handlers of [main.py] are embedded as functions that take the
    process-wide [db] handle (absent when the connection failed) and return
    the outcome of the request together with the handle after the request.
    Documents are Python dicts, modelled as [gmap string value].

    Third-party behaviour that the source only calls (Python's builtin
    [str], pydantic's e-mail, URL and boolean validators, the store's
    ordering of sort keys) is a [Variable] of the section [Api]. *)

From Stdlib Require Import ZArith NArith List Lia Bool Ascii String.
From Stdlib.Strings Require Import Byte.
From stdpp Require Import base option list gmap strings.

Set Warnings "-register-all".
Local Open Scope Z_scope.

(* ===================================================================== *)
(** ** Identifiers *)
(* ===================================================================== *)

Module Bson.

(** [bson.ObjectId] is a third-party type that [main.py] only imports.
    An identifier wraps a byte string: the store hands out 12 bytes.
    [ObjectId_parse] is the constructor [ObjectId(text)] on a [str]
    argument: the text has to be 24 characters long and is then read by
    [bytes.fromhex], which skips ASCII whitespace between the pairs of
    hexadecimal digits, so a 24-character text with whitespace in it is
    decoded to fewer than 12 bytes.  [ObjectId_str] is [str(oid)], the
    lower-case [hexlify] of the bytes. *)
Definition ObjectId : Type := list byte.

(** The digit of a value below 16, in lower case as [hexlify] writes it,
    and the value of a digit in either case, by character code. *)
Definition hex_digit (n : N) : ascii :=
  ascii_of_N (if (n <? 10)%N then 48 + n else 87 + n)%N.

Definition hex_value (c : ascii) : option N :=
  let code := N_of_ascii c in
  if (48 <=? code)%N && (code <=? 57)%N then Some (code - 48)%N
  else if (97 <=? code)%N && (code <=? 102)%N then Some (code - 87)%N
  else if (65 <=? code)%N && (code <=? 70)%N then Some (code - 55)%N
  else None.

Definition is_hex_char (c : ascii) : bool :=
  match hex_value c with Some _ => true | None => false end.

Fixpoint all_hex (s : string) : bool :=
  match s with
  | EmptyString => true
  | String c s' => is_hex_char c && all_hex s'
  end.

(** ASCII whitespace: space, and tab to carriage return. *)
Definition is_space (c : ascii) : bool :=
  let code := N_of_ascii c in
  (code =? 32)%N || ((9 <=? code)%N && (code <=? 13)%N).

(** [bytes.fromhex]: whitespace is skipped before each pair; the two
    digits of a pair have to follow each other. *)
Fixpoint fromhex (s : string) : option (list byte) :=
  match s with
  | EmptyString => Some []
  | String c s' =>
      if is_space c then fromhex s'
      else
        match hex_value c, s' with
        | Some hi, String c' s'' =>
            match hex_value c' with
            | Some lo =>
                b ← Byte.of_N (16 * hi + lo);
                rest ← fromhex s'';
                Some (b :: rest)
            | None => None
            end
        | _, _ => None
        end
  end.

Fixpoint hexlify (bs : list byte) : string :=
  match bs with
  | [] => EmptyString
  | b :: bs' =>
      String (hex_digit (Byte.to_N b / 16)%N)
        (String (hex_digit (Byte.to_N b mod 16)%N) (hexlify bs'))
  end.

Definition ObjectId_parse (text : string) : option ObjectId :=
  if Nat.eqb (String.length text) 24 then fromhex text else None.

Definition ObjectId_str (oid : ObjectId) : string := hexlify oid.

(** Identifiers are equal when their bytes are. *)
Fixpoint oid_eqb (a b : ObjectId) : bool :=
  match a, b with
  | [], [] => true
  | x :: a', y :: b' => Byte.eqb x y && oid_eqb a' b'
  | _, _ => false
  end.

(** The identifiers the store hands out: 12 bytes. *)
Definition oid_wf (oid : ObjectId) : Prop := length oid = 12%nat.

(** The spec's wording of a well-formed identifier text. *)
Definition well_formed_id (text : string) : Prop :=
  String.length text = 24%nat ∧ all_hex text = true.

(** A text that is not 24 characters long, or that holds a character
    that is neither a hexadecimal digit nor ASCII whitespace. *)
Definition foreign_id (text : string) : Prop :=
  String.length text ≠ 24%nat
  ∨ ∃ c, In c (list_ascii_of_string text)
      ∧ is_hex_char c = false ∧ is_space c = false.

End Bson.
Import Bson.

(* ===================================================================== *)
(** ** Python values and documents *)
(* ===================================================================== *)

(** The values a document holds.  [VDatetime] is a timestamp in
    milliseconds, [VUrl] the URL object pydantic's [HttpUrl] dumps to.
    Floating-point numbers are left out. *)
Inductive value : Type :=
  | VNone
  | VBool (b : bool)
  | VInt (z : Z)
  | VStr (s : string)
  | VList (l : list value)
  | VDict (d : gmap string value)
  | VOid (oid : ObjectId)
  | VDatetime (ms : Z)
  | VUrl (u : string).

(** A storage or transport document: a Python [dict] with string keys. *)
Abbreviation doc := (gmap string value).

(** Python's truth value of an object, as [if x:] tests it. *)
Definition truthy (v : value) : bool :=
  match v with
  | VNone => false
  | VBool b => b
  | VInt z => negb (z =? 0)
  | VStr s => negb (Nat.eqb (String.length s) 0)
  | VList l => negb (Nat.eqb (length l) 0)
  | VDict d => negb (Nat.eqb (size d) 0)
  | VOid _ => true
  | VDatetime _ => true
  | VUrl _ => true
  end.

(** What the driver can encode as BSON.  Of the values a dumped payload
    holds, the URL object is the one it refuses ([InvalidDocument]); the
    refusal reaches into lists and nested dicts. *)
Fixpoint encodable (v : value) : bool :=
  match v with
  | VUrl _ => false
  | VList l => forallb encodable l
  | VDict d => map_fold (λ _ v' ok, encodable v' && ok) true d
  | _ => true
  end.

(** What a request ends in: a returned body or a raised exception. *)
Inductive exn : Type :=
  | HTTPException (status_code : Z) (detail : string)
  | RequestValidationError
  | AttributeError (msg : string)
  | TypeError (msg : string)
  | InvalidId (text : string)
  | InvalidDocument
  | StoreUnavailable.

Inductive outcome (A : Type) : Type :=
  | Return (a : A)
  | Raise (e : exn).
Arguments Return {A} a.
Arguments Raise {A} e.

(** The status FastAPI answers with: 200 for a returned body, the code of
    an [HTTPException], 422 for a body that fails validation, and 500
    ("Internal Server Error") for any exception no handler caught. *)
Definition status_of {A} (r : outcome A) : Z :=
  match r with
  | Return _ => 200
  | Raise (HTTPException c _) => c
  | Raise RequestValidationError => 422
  | Raise _ => 500
  end.

(** An error the handler raised on purpose, as opposed to a fault that
    escaped it. *)
Definition explicit_error {A} (r : outcome A) : bool :=
  match r with
  | Raise (HTTPException _ _) => true
  | _ => false
  end.

(* ===================================================================== *)
(** ** Request bodies and the schemas of [schemas.py] *)
(* ===================================================================== *)

(** A parsed JSON body.  A number with a fraction or an exponent is kept
    as its literal. *)
Inductive json : Type :=
  | JNull
  | JBool (b : bool)
  | JInt (z : Z)
  | JFloat (literal : string)
  | JStr (s : string)
  | JArr (l : list json)
  | JObj (o : gmap string json).

Class BaseModel (A : Type) := model_dump : A → doc.

Definition dump_optional {A} (f : A → value) (o : option A) : value :=
  match o with Some a => f a | None => VNone end.

Module ExperienceItem.
Record t : Type := mk {
  role : string;
  company : string;
  start_date : string;
  end_date : option string;
  description : option string }.

Definition dump (e : t) : doc :=
  list_to_map
    [ ("role", VStr (role e)); ("company", VStr (company e));
      ("start_date", VStr (start_date e));
      ("end_date", dump_optional VStr (end_date e));
      ("description", dump_optional VStr (description e)) ].
End ExperienceItem.

Module EducationItem.
Record t : Type := mk {
  school : string;
  degree : string;
  start_year : option string;
  end_year : option string }.

Definition dump (e : t) : doc :=
  list_to_map
    [ ("school", VStr (school e)); ("degree", VStr (degree e));
      ("start_year", dump_optional VStr (start_year e));
      ("end_year", dump_optional VStr (end_year e)) ].
End EducationItem.

Module Cv.
Record t : Type := mk {
  name : string;
  title : string;
  summary : option string;
  location : option string;
  email : option string;
  phone : option string;
  skills : list string;
  experience : list ExperienceItem.t;
  education : list EducationItem.t;
  website : option string;
  avatar_url : option string }.

Definition fields : list string :=
  [ "name"; "title"; "summary"; "location"; "email"; "phone"; "skills";
    "experience"; "education"; "website"; "avatar_url" ].

(** Whether the payload sets one of the [HttpUrl] fields. *)
Definition sets_url (c : t) : bool :=
  match website c, avatar_url c with
  | None, None => false
  | _, _ => true
  end.

Definition dump (c : t) : doc :=
  list_to_map
    [ ("name", VStr (name c)); ("title", VStr (title c));
      ("summary", dump_optional VStr (summary c));
      ("location", dump_optional VStr (location c));
      ("email", dump_optional VStr (email c));
      ("phone", dump_optional VStr (phone c));
      ("skills", VList (VStr <$> skills c));
      ("experience", VList ((λ e, VDict (ExperienceItem.dump e)) <$> experience c));
      ("education", VList ((λ e, VDict (EducationItem.dump e)) <$> education c));
      ("website", dump_optional VUrl (website c));
      ("avatar_url", dump_optional VUrl (avatar_url c)) ].
End Cv.

Module Project.
Record t : Type := mk {
  title : string;
  description : option string;
  tech_stack : list string;
  url : option string;
  repo_url : option string;
  image_url : option string;
  featured : bool }.

Definition fields : list string :=
  [ "title"; "description"; "tech_stack"; "url"; "repo_url"; "image_url";
    "featured" ].

(** Whether the payload sets one of the [HttpUrl] fields. *)
Definition sets_url (p : t) : bool :=
  match url p, repo_url p, image_url p with
  | None, None, None => false
  | _, _, _ => true
  end.

Definition dump (p : t) : doc :=
  list_to_map
    [ ("title", VStr (title p));
      ("description", dump_optional VStr (description p));
      ("tech_stack", VList (VStr <$> tech_stack p));
      ("url", dump_optional VUrl (url p));
      ("repo_url", dump_optional VUrl (repo_url p));
      ("image_url", dump_optional VUrl (image_url p));
      ("featured", VBool (featured p)) ].
End Project.

(** The example schema [User].  ([Product], the other example schema,
    has a floating-point price and is left out.) *)
Module User.
Record t : Type := mk {
  name : string;
  email : string;
  address : string;
  age : option Z;
  is_active : bool }.
End User.

#[global] Instance ExperienceItem_model : BaseModel ExperienceItem.t := ExperienceItem.dump.
#[global] Instance EducationItem_model : BaseModel EducationItem.t := EducationItem.dump.
#[global] Instance Cv_model : BaseModel Cv.t := Cv.dump.
#[global] Instance Project_model : BaseModel Project.t := Project.dump.

(** pydantic's validators for the field types the schemas use.  A [str]
    field takes a JSON string only; [Optional[T]] also takes null;
    [List[T]] takes an array and validates it element-wise. *)
Definition pyd_str (j : json) : option string :=
  match j with JStr s => Some s | _ => None end.

Definition pyd_optional {A} (f : json → option A) (j : json) : option (option A) :=
  match j with JNull => Some None | _ => Some <$> f j end.

Definition pyd_list {A} (f : json → option A) (j : json) : option (list A) :=
  match j with JArr l => mapM f l | _ => None end.

(** A field declared without a default ([...]) and one declared with a
    default, read from the body's object. *)
Definition required {A} (f : json → option A) (o : gmap string json) (k : string)
  : option A :=
  o !! k ≫= f.

Definition defaulted {A} (f : json → option A) (dflt : A) (o : gmap string json)
    (k : string) : option A :=
  match o !! k with Some j => f j | None => Some dflt end.

(* ===================================================================== *)
(** ** The document store *)
(* ===================================================================== *)

(** The two filters [main.py] passes to the driver: [{}] and
    [{"_id": oid}]. *)
Inductive query : Type :=
  | Q_all
  | Q_id (oid : ObjectId).

Definition matches (q : query) (d : doc) : bool :=
  match q with
  | Q_all => true
  | Q_id oid =>
      match d !! "_id" with
      | Some (VOid o) => oid_eqb o oid
      | _ => false
      end
  end.

(** A collection keeps its documents in storage-natural order; a database
    maps collection names to collections, a name never written to being an
    empty collection. *)
Abbreviation Database := (gmap string (list doc)).

Definition collection (s : Database) (name : string) : list doc :=
  default [] (s !! name).

Definition find (q : query) (c : list doc) : list doc := List.filter (matches q) c.

Definition find_one (q : query) (c : list doc) : option doc := List.find (matches q) c.

(** [update_one(filter, {"$set": fields})]: the first matching document
    gets every key of [fields] written over it, and the result carries
    [matched_count]; fields the driver cannot encode make the write of
    the matched document fail with [InvalidDocument], nothing being
    written.  (What the driver does with such fields when no document
    matches is not part of this model: there the count is 0.) *)
Fixpoint update_one (q : query) (fields : doc) (c : list doc)
  : outcome (nat * list doc) :=
  match c with
  | [] => Return (O, [])
  | d :: c' =>
      if matches q d then
        if encodable (VDict fields) then Return (1%nat, (fields ∪ d) :: c')
        else Raise InvalidDocument
      else
        match update_one q fields c' with
        | Return (n, c'') => Return (n, d :: c'')
        | Raise e => Raise e
        end
  end.

(** [delete_one(filter)]: removes the first matching document; the result
    carries [deleted_count]. *)
Fixpoint delete_one (q : query) (c : list doc) : nat * list doc :=
  match c with
  | [] => (O, [])
  | d :: c' =>
      if matches q d then (1%nat, c')
      else let '(n, c'') := delete_one q c' in (n, d :: c'')
  end.

(** [Cursor.limit(n)]: zero means no limit, a negative number its
    absolute value. *)
Definition cursor_limit (n : Z) (c : list doc) : list doc :=
  if n =? 0 then c else take (Z.abs_nat n) c.

(** The sort key of a document: a missing field sorts as null. *)
Definition sort_key (key : string) (d : doc) : value := default VNone (d !! key).

(** Handlers run against the process-wide [db] handle, which is [None]
    when the connection could not be set up. *)
Definition M (A : Type) : Type := option Database → outcome A * option Database.

#[global] Instance M_ret : MRet M := λ A a db, (Return a, db).
#[global] Instance M_bind : MBind M := λ A B k m db,
  match m db with
  | (Return a, db') => k a db'
  | (Raise e, db') => (Raise e, db')
  end.

Definition raise {A} (e : exn) : M A := λ db, (Raise e, db).

Definition lift {A} (r : outcome A) : M A := λ db, (r, db).

(** Reading the global [db]. *)
Definition get_db : M (option Database) := λ db, (Return db, db).

(** [db.<name>] on the absent handle: attribute access on [None]. *)
Definition no_attribute (name : string) : exn :=
  AttributeError ("'NoneType' object has no attribute '" +:+ name +:+ "'").

(** [db.<name>.<read>(...)]: a read of the collection [name]. *)
Definition db_read {A} (name : string) (read : list doc → A) : M A := λ db,
  match db with
  | Some s => (Return (read (collection s name)), db)
  | None => (Raise (no_attribute name), db)
  end.

(** [db.<name>.<write>(...)]: a write to the collection [name], which
    answers with a count or raises, leaving the collection as it was. *)
Definition db_write (name : string)
    (write : list doc → outcome (nat * list doc)) : M nat := λ db,
  match db with
  | Some s =>
      match write (collection s name) with
      | Return (count, c') => (Return count, Some (<[name := c']> s))
      | Raise e => (Raise e, db)
      end
  | None => (Raise (no_attribute name), db)
  end.

(* ===================================================================== *)
(** ** Worked requests *)
(* ===================================================================== *)

(** Concrete stores and requests, and a concrete choice for each
    third-party function the section [Api] abstracts over, on which the
    handlers are evaluated. *)
Module Sample.

Definition str (v : value) : string :=
  match v with
  | VNone => "None"
  | VBool true => "True"
  | VBool false => "False"
  | _ => ""
  end.

(** A format check that accepts every text as it is. *)
Definition any_text (s : string) : option string := Some s.

Definition json_bool (j : json) : option bool :=
  match j with JBool b => Some b | _ => None end.

(** Timestamps in time order, above every other value. *)
Definition by_date (a b : value) : bool :=
  match a, b with
  | VDatetime x, VDatetime y => x <=? y
  | VDatetime _, _ => false
  | _, _ => true
  end.

Definition zeros : list byte := repeat x00 11.

Definition oid : ObjectId := zeros ++ [xff].
Definition older_oid : ObjectId := zeros ++ [xfe].
Definition new_oid : ObjectId := zeros ++ [x10].
Definition spaced_id_text : string := "12 34 56 78 9a bc de f0 ".
Definition id_text : string := "0000000000000000000000ff".

Definition old_cv : doc :=
  list_to_map
    [ ("_id", VOid older_oid); ("name", VStr "Ann"); ("title", VStr "Clerk");
      ("created_at", VDatetime 1000) ].

Definition stored_cv : doc :=
  list_to_map
    [ ("_id", VOid oid); ("name", VStr "Ann"); ("title", VStr "Engineer");
      ("summary", VStr "old"); ("created_at", VDatetime 2000) ].

Definition stored_project : doc :=
  list_to_map [ ("_id", VOid oid); ("title", VStr "Site"); ("stars", VInt 7) ].

Definition store : Database :=
  list_to_map [ ("cv", [old_cv; stored_cv]); ("project", [stored_project]) ].

Definition cv_body : json :=
  JObj (list_to_map [ ("name", JStr "Ann"); ("title", JStr "Architect") ]).

Definition cv_payload : Cv.t :=
  Cv.mk "Ann" "Architect" None None None None [] [] [] None None.

Definition project_payload : Project.t :=
  Project.mk "Site" None ["rocq"] None None None true.

(** Payloads that set a URL field. *)
Definition linked_cv : Cv.t :=
  Cv.mk "Ann" "Architect" None None None None [] [] []
        (Some "https://example.org/") None.


Definition json_int (j : json) : option Z :=
  match j with JInt z => Some z | _ => None end.

Definition handle_name (s : Database) : option string := Some "portfolio".

Definition listing (s : Database) : list string + string := inl ["cv"; "project"].

Definition prefix (n : nat) (text : string) : string := String.substring 0 n text.

Definition env : gmap string string :=
  list_to_map [ ("DATABASE_URL", "mongodb://localhost"); ("DATABASE_NAME", "") ].

Definition upper_id_text : string := "0000000000000000000000FF".

(** The stored CV after a PUT of [cv_payload], and the store then. *)
Definition updated_cv : doc := Cv.dump cv_payload ∪ stored_cv.

Definition store_after_put : Database := <["cv" := [old_cv; updated_cv]]> store.

Definition cv_object : gmap string json :=
  list_to_map
    [ ("name", JStr "Ann"); ("title", JStr "Architect");
      ("skills", JArr [JStr "rocq"; JStr "python"; JStr "rocq"]) ].

Definition skilled_cv : Cv.t :=
  Cv.mk "Ann" "Architect" None None None None ["rocq"; "python"; "rocq"] [] []
        None None.

Definition user_body : json :=
  JObj (list_to_map
          [ ("name", JStr "Ann"); ("email", JStr "not an address");
            ("address", JStr "1 Main St"); ("age", JInt 41) ]).

Definition user : User.t := User.mk "Ann" "not an address" "1 Main St" (Some 41) true.

End Sample.

Section Api.

Set Default Proof Using "Type".

(** Python's builtin [str] on the values other than strings and
    identifiers. *)
Variable builtin_str : value → string.

(** pydantic's [EmailStr] and [HttpUrl] formats (each returns the
    normalised text) and its coercion of a JSON value to [bool]. *)
Variable email_validator : string → option string.
Variable url_validator : string → option string.
Variable bool_validator : json → option bool.

(** The store's order on sort keys, a total preorder. *)
Variable bson_le : value → value → bool.
Hypothesis bson_le_total : ∀ a b, bson_le a b = true ∨ bson_le b a = true.
Hypothesis bson_le_trans :
  ∀ a b c, bson_le a b = true → bson_le b c = true → bson_le a c = true.

(** *** Validation *)

Definition pyd_email (j : json) : option string := pyd_str j ≫= email_validator.
Definition pyd_url (j : json) : option string := pyd_str j ≫= url_validator.

Definition validate_ExperienceItem (j : json) : option ExperienceItem.t :=
  match j with
  | JObj o =>
      role ← required pyd_str o "role";
      company ← required pyd_str o "company";
      start_date ← required pyd_str o "start_date";
      end_date ← defaulted (pyd_optional pyd_str) None o "end_date";
      description ← defaulted (pyd_optional pyd_str) None o "description";
      Some (ExperienceItem.mk role company start_date end_date description)
  | _ => None
  end.

Definition validate_EducationItem (j : json) : option EducationItem.t :=
  match j with
  | JObj o =>
      school ← required pyd_str o "school";
      degree ← required pyd_str o "degree";
      start_year ← defaulted (pyd_optional pyd_str) None o "start_year";
      end_year ← defaulted (pyd_optional pyd_str) None o "end_year";
      Some (EducationItem.mk school degree start_year end_year)
  | _ => None
  end.

Definition validate_Cv (j : json) : option Cv.t :=
  match j with
  | JObj o =>
      name ← required pyd_str o "name";
      title ← required pyd_str o "title";
      summary ← defaulted (pyd_optional pyd_str) None o "summary";
      location ← defaulted (pyd_optional pyd_str) None o "location";
      email ← defaulted (pyd_optional pyd_email) None o "email";
      phone ← defaulted (pyd_optional pyd_str) None o "phone";
      skills ← defaulted (pyd_list pyd_str) [] o "skills";
      experience ← defaulted (pyd_list validate_ExperienceItem) [] o "experience";
      education ← defaulted (pyd_list validate_EducationItem) [] o "education";
      website ← defaulted (pyd_optional pyd_url) None o "website";
      avatar_url ← defaulted (pyd_optional pyd_url) None o "avatar_url";
      Some (Cv.mk name title summary location email phone skills experience
                  education website avatar_url)
  | _ => None
  end.

Definition validate_Project (j : json) : option Project.t :=
  match j with
  | JObj o =>
      title ← required pyd_str o "title";
      description ← defaulted (pyd_optional pyd_str) None o "description";
      tech_stack ← defaulted (pyd_list pyd_str) [] o "tech_stack";
      url ← defaulted (pyd_optional pyd_url) None o "url";
      repo_url ← defaulted (pyd_optional pyd_url) None o "repo_url";
      image_url ← defaulted (pyd_optional pyd_url) None o "image_url";
      featured ← defaulted bool_validator false o "featured";
      Some (Project.mk title description tech_stack url repo_url image_url featured)
  | _ => None
  end.

(** FastAPI validates the body against the handler's parameter type
    before it calls the handler, and answers 422 when that fails. *)
Definition with_body {A B} (validate : json → option A) (handler : A → M B)
    (body : json) : M B :=
  match validate body with
  | Some payload => handler payload
  | None => raise RequestValidationError
  end.

(** *** Helpers of [main.py] *)

Definition to_object_id (id_str : string) : outcome ObjectId :=
  match ObjectId_parse id_str with
  | Some oid => Return oid
  | None => Raise (HTTPException 400 "Invalid ID format")
  end.

Definition py_str (v : value) : string :=
  match v with
  | VStr s => s
  | VOid oid => ObjectId_str oid
  | _ => builtin_str v
  end.

(** [serialize]: copy the dict; when [doc.get("_id")] is truthy, pop it
    and store its [str] under ["id"]. *)
Definition serialize (d : doc) : doc :=
  match d !! "_id" with
  | Some v => if truthy v then <["id" := VStr (py_str v)]> (delete "_id" d) else d
  | None => d
  end.

(** [serialize] applied to what [find_one] returned: [dict(None)] is a
    [TypeError]. *)
Definition serialize_found (found : option doc) : M doc :=
  match found with
  | Some d => mret (serialize d)
  | None => raise (TypeError "'NoneType' object is not iterable")
  end.

(** *** The driver's cursor sort *)

Definition precedes (key : string) (direction : Z) (a b : doc) : bool :=
  if direction <? 0 then bson_le (sort_key key b) (sort_key key a)
  else bson_le (sort_key key a) (sort_key key b).

Fixpoint insert_sorted (key : string) (direction : Z) (d : doc) (c : list doc)
  : list doc :=
  match c with
  | [] => [d]
  | d' :: c' =>
      if precedes key direction d d' then d :: d' :: c'
      else d' :: insert_sorted key direction d c'
  end.

Definition cursor_sort (key : string) (direction : Z) (c : list doc) : list doc :=
  foldr (insert_sorted key direction) [] c.

(** *** The helpers of [database.py] *)

(** Modelled from the spec: [database.create_document] is not among the
    sources.  By the spec's gateway contract it serializes the validated
    record to a storage document, inserts it under the identifier the
    store assigns ([new_id]) and returns that identifier's text; it fails
    with a store-unavailable error when there is no live connection. *)
Definition create_document {A} `{BaseModel A} (collection_name : string)
    (new_id : ObjectId) (data : A) : M string := λ db,
  match db with
  | None => (Raise StoreUnavailable, db)
  | Some s =>
      let stored := <["_id" := VOid new_id]> (model_dump data) in
      (Return (ObjectId_str new_id),
       Some (<[collection_name := collection s collection_name ++ [stored]]> s))
  end.

(** Modelled from the spec: [database.get_documents] is not among the
    sources.  By the spec's gateway contract it returns up to [limit]
    documents matching the filter, in storage-natural order, and fails
    with a store-unavailable error when there is no live connection. *)
Definition get_documents (collection_name : string) (filter_dict : query)
    (limit : Z) : M (list doc) := λ db,
  match db with
  | None => (Raise StoreUnavailable, db)
  | Some s =>
      (Return (take (Z.to_nat limit) (find filter_dict (collection s collection_name))), db)
  end.

(** *** CV endpoints *)

Definition get_cv : M (option doc) :=
  db ← get_db;
  if db is None then raise (HTTPException 500 "Database not available") else
  docs ← db_read "cv" (λ c, cursor_limit 1 (cursor_sort "created_at" (-1) (find Q_all c)));
  let items := serialize <$> docs in
  mret (head items).

Definition create_cv (new_id : ObjectId) (payload : Cv.t) : M doc :=
  cv_id ← create_document "cv" new_id payload;
  created ← db_read "cv" (λ c, oid ← ObjectId_parse cv_id; Some (find_one (Q_id oid) c));
  match created with
  | None => raise (InvalidId cv_id)
  | Some found => serialize_found found
  end.

Definition update_cv (cv_id : string) (payload : Cv.t) : M doc :=
  db ← get_db;
  if db is None then raise (HTTPException 500 "Database not available") else
  oid ← lift (to_object_id cv_id);
  matched_count ← db_write "cv" (update_one (Q_id oid) (model_dump payload));
  if Nat.eqb matched_count 0 then raise (HTTPException 404 "CV not found") else
  updated ← db_read "cv" (find_one (Q_id oid));
  serialize_found updated.

Definition delete_cv (cv_id : string) : M doc :=
  db ← get_db;
  if db is None then raise (HTTPException 500 "Database not available") else
  oid ← lift (to_object_id cv_id);
  deleted_count ← db_write "cv" (λ c, Return (delete_one (Q_id oid) c));
  if Nat.eqb deleted_count 0 then raise (HTTPException 404 "CV not found") else
  mret (list_to_map [("status", VStr "deleted"); ("id", VStr cv_id)]).

(** *** Project endpoints *)

Definition list_projects (limit : Z) : M (list doc) :=
  docs ← get_documents "project" Q_all limit;
  mret (serialize <$> docs).

Definition create_project (new_id : ObjectId) (payload : Project.t) : M doc :=
  proj_id ← create_document "project" new_id payload;
  created ← db_read "project" (λ c, oid ← ObjectId_parse proj_id; Some (find_one (Q_id oid) c));
  match created with
  | None => raise (InvalidId proj_id)
  | Some found => serialize_found found
  end.

Definition update_project (project_id : string) (payload : Project.t) : M doc :=
  oid ← lift (to_object_id project_id);
  matched_count ← db_write "project" (update_one (Q_id oid) (model_dump payload));
  if Nat.eqb matched_count 0 then raise (HTTPException 404 "Project not found") else
  updated ← db_read "project" (find_one (Q_id oid));
  serialize_found updated.

Definition delete_project (project_id : string) : M doc :=
  oid ← lift (to_object_id project_id);
  deleted_count ← db_write "project" (λ c, Return (delete_one (Q_id oid) c));
  if Nat.eqb deleted_count 0 then raise (HTTPException 404 "Project not found") else
  mret (list_to_map [("status", VStr "deleted"); ("id", VStr project_id)]).

(** *** Routes: the handlers behind FastAPI's parameter handling *)

(** [limit: int = 50]: the query parameter and its default. *)
Definition GET_projects (limit : option Z) : M (list doc) :=
  list_projects (default 50 limit).

Definition POST_cv (new_id : ObjectId) : json → M doc :=
  with_body validate_Cv (create_cv new_id).

Definition PUT_cv (cv_id : string) : json → M doc :=
  with_body validate_Cv (update_cv cv_id).

Definition POST_projects (new_id : ObjectId) : json → M doc :=
  with_body validate_Project (create_project new_id).

Definition PUT_projects (project_id : string) : json → M doc :=
  with_body validate_Project (update_project project_id).

(** *** The example schema [User] of [schemas.py] *)

(** pydantic's coercion of a JSON value to [int]. *)
Variable int_validator : json → option Z.

(** An [int] field declared with [ge] and [le]: the coerced number has to
    lie within the bounds. *)
Definition pyd_int_range (lo hi : Z) (j : json) : option Z :=
  n ← int_validator j;
  if (lo <=? n) && (n <=? hi) then Some n else None.

Definition validate_User (j : json) : option User.t :=
  match j with
  | JObj o =>
      name ← required pyd_str o "name";
      email ← required pyd_str o "email";
      address ← required pyd_str o "address";
      age ← defaulted (pyd_optional (pyd_int_range 0 120)) None o "age";
      is_active ← defaulted bool_validator true o "is_active";
      Some (User.mk name email address age is_active)
  | _ => None
  end.

(** *** The connectivity diagnostic *)

(** What the diagnostic observes of its surroundings: the [name]
    attribute of the handle when it has one, the answer of
    [db.list_collection_names()] (the names, or the text [str(e)] of the
    exception it raised), and Python's slice [text[:n]]. *)
Variable db_name : Database → option string.
Variable list_collection_names : Database → list string + string.
Variable first_chars : nat → string → string.

(** [os.getenv(k)]: the value of the variable, or [None]. *)
Definition getenv (env : gmap string string) (k : string) : value :=
  match env !! k with Some v => VStr v | None => VNone end.

(** [test_database]: the response dict is built by successive
    assignments.  Nothing in the outer [try] block can raise once the
    inner [try] has caught the listing's exception, so the outer handler
    has no case here. *)
Definition test_database (env : gmap string string) (db : option Database) : doc :=
  let response : doc :=
    list_to_map
      [ ("backend", VStr "✅ Running"); ("database", VStr "❌ Not Available");
        ("database_url", VNone); ("database_name", VNone);
        ("connection_status", VStr "Not Connected"); ("collections", VList []) ] in
  let response :=
    match db with
    | Some s =>
        let response := <["database" := VStr "✅ Available"]> response in
        let response := <["database_url" := VStr "✅ Configured"]> response in
        let response :=
          <["database_name" := VStr (default "✅ Connected" (db_name s))]> response in
        let response := <["connection_status" := VStr "Connected"]> response in
        match list_collection_names s with
        | inl collections =>
            let response :=
              <["collections" := VList (VStr <$> take 10 collections)]> response in
            <["database" := VStr "✅ Connected & Working"]> response
        | inr e =>
            <["database" := VStr ("⚠️ Connected but Error: " +:+ first_chars 50 e)]>
              response
        end
    | None => <["database" := VStr "⚠️ Available but not initialized"]> response
    end in
  let response :=
    <["database_url" :=
        VStr (if truthy (getenv env "DATABASE_URL") then "✅ Set" else "❌ Not Set")]>
      response in
  <["database_name" :=
      VStr (if truthy (getenv env "DATABASE_NAME") then "✅ Set" else "❌ Not Set")]>
    response.

(** [read_root]. *)
Definition read_root : doc := {[ "message" := VStr "Portfolio/CV API running" ]}.

(** *** The validation rules in the spec's words *)

(** The field [k] of a body: absent when the body is not an object or
    has no such key. *)
Definition field (j : json) (k : string) : option json :=
  match j with JObj o => o !! k | _ => None end.

Definition absent_or_null (j : json) (k : string) : Prop :=
  field j k = None ∨ field j k = Some JNull.

(** What a well-formed value of each field type is. *)
Definition is_text (v : json) : Prop := ∃ s, v = JStr s.

Definition is_email (v : json) : Prop :=
  ∃ s, v = JStr s ∧ is_Some (email_validator s).

Definition is_url (v : json) : Prop :=
  ∃ s, v = JStr s ∧ is_Some (url_validator s).

Definition is_bool (v : json) : Prop := is_Some (bool_validator v).

Definition is_optional (P : json → Prop) (v : json) : Prop := v = JNull ∨ P v.

Definition is_list_of (P : json → Prop) (v : json) : Prop :=
  ∃ l, v = JArr l ∧ Forall P l.

(** A payload violates a schema, given as its required field names and
    its table of field types, when a required field is absent or null or
    when a field of the table is present with a malformed value.  A key
    outside the table cannot be the cause of a violation. *)
Definition violates (required_fields : list string)
    (types : list (string * (json → Prop))) (j : json) : Prop :=
  (∃ k, k ∈ required_fields ∧ absent_or_null j k)
  ∨ (∃ k P v, (k, P) ∈ types ∧ field j k = Some v ∧ ¬ P v).

Definition ExperienceItem_required : list string :=
  [ "role"; "company"; "start_date" ].

Definition ExperienceItem_types : list (string * (json → Prop)) :=
  [ ("role", is_text); ("company", is_text); ("start_date", is_text);
    ("end_date", is_optional is_text); ("description", is_optional is_text) ].

Definition is_ExperienceItem (v : json) : Prop :=
  ¬ violates ExperienceItem_required ExperienceItem_types v.

Definition EducationItem_required : list string := [ "school"; "degree" ].

Definition EducationItem_types : list (string * (json → Prop)) :=
  [ ("school", is_text); ("degree", is_text);
    ("start_year", is_optional is_text); ("end_year", is_optional is_text) ].

Definition is_EducationItem (v : json) : Prop :=
  ¬ violates EducationItem_required EducationItem_types v.

Definition Cv_required : list string := [ "name"; "title" ].

Definition Cv_types : list (string * (json → Prop)) :=
  [ ("name", is_text); ("title", is_text);
    ("summary", is_optional is_text); ("location", is_optional is_text);
    ("email", is_optional is_email); ("phone", is_optional is_text);
    ("skills", is_list_of is_text);
    ("experience", is_list_of is_ExperienceItem);
    ("education", is_list_of is_EducationItem);
    ("website", is_optional is_url); ("avatar_url", is_optional is_url) ].

Definition Project_required : list string := [ "title" ].

Definition Project_types : list (string * (json → Prop)) :=
  [ ("title", is_text); ("description", is_optional is_text);
    ("tech_stack", is_list_of is_text);
    ("url", is_optional is_url); ("repo_url", is_optional is_url);
    ("image_url", is_optional is_url); ("featured", is_bool) ].

(** A validator decides a well-formedness predicate. *)
Definition reflects {A} (f : json → option A) (P : json → Prop) : Prop :=
  ∀ v, match f v with Some _ => P v | None => ¬ P v end.

(** *** Answers *)


(** The query matches none of the documents. *)
Definition no_match (q : query) (c : list doc) : Prop :=
  Forall (λ d, matches q d = false) c.

(** *** Stored documents and identifiers *)


(* ===================================================================== *)
(** ** Properties *)

(** *** Unfolding a handler *)

Ltac run :=
  cbv [mbind M_bind mret M_ret get_db lift raise db_read db_write
       serialize_found with_body].
(* ===================================================================== *)

(** *** Identifier texts *)

Lemma hex_value_digit (n : N) : (n < 16)%N → hex_value (hex_digit n) = Some n.
Proof.
  intros Hn. destruct n as [|p]; [done|].
  do 4 (destruct p as [p|p|]; try done); lia.
Qed.

Lemma hex_digit_not_space (n : N) : (n < 16)%N → is_space (hex_digit n) = false.
Proof.
  intros Hn. destruct n as [|p]; [done|].
  do 4 (destruct p as [p|p|]; try done); lia.
Qed.



Lemma byte_of_nibbles (b : byte) :
  Byte.of_N (16 * (Byte.to_N b / 16) + Byte.to_N b mod 16)%N = Some b.
Proof. rewrite <- N.div_mod by done. apply Byte.of_to_N. Qed.


(** [bytes.fromhex(hexlify(bs)) == bs]. *)
Lemma fromhex_hexlify (bs : list byte) : fromhex (hexlify bs) = Some bs.
Proof.
  induction bs as [|b bs IH]; [done|]. cbn [hexlify fromhex].
  pose proof (Byte.to_N_bounded b) as Hb.
  assert (Byte.to_N b / 16 < 16)%N as Hhi
    by (apply N.Div0.div_lt_upper_bound; lia).
  assert (Byte.to_N b mod 16 < 16)%N as Hlo by (apply N.mod_lt; lia).
  rewrite (hex_digit_not_space _ Hhi), (hex_value_digit _ Hhi), (hex_value_digit _ Hlo).
  by rewrite byte_of_nibbles, IH.
Qed.

Lemma length_hexlify (bs : list byte) :
  String.length (hexlify bs) = (2 * length bs)%nat.
Proof. induction bs as [|b bs IH]; simpl; [done|]. rewrite IH. lia. Qed.

Lemma all_hex_hexlify (bs : list byte) : all_hex (hexlify bs) = true.
Proof.
  induction bs as [|b bs IH]; [done|]. cbn [hexlify all_hex].
  pose proof (Byte.to_N_bounded b) as Hb. unfold is_hex_char.
  rewrite !hex_value_digit, IH; [done | apply N.mod_lt; lia |].
  apply N.Div0.div_lt_upper_bound; lia.
Qed.


(** Every character [bytes.fromhex] reads over is a digit or
    whitespace. *)
Lemma fromhex_chars (s : string) :
  (is_Some (fromhex s) →
     ∀ c, In c (list_ascii_of_string s) → is_hex_char c = true ∨ is_space c = true)
  ∧ ∀ c0, is_Some (fromhex (String c0 s)) →
      ∀ c, In c (list_ascii_of_string (String c0 s)) →
        is_hex_char c = true ∨ is_space c = true.
Proof.
  induction s as [|c1 s [IH1 IH2]].
  - split; [by intros _ c []|]. intros c0. cbn [fromhex].
    destruct (is_space c0) eqn:Hsp.
    + intros _ c [<-|[]]. by right.
    + destruct (hex_value c0); intros [? ?]; done.
  - split; [exact (IH2 c1)|]. intros c0. cbn [fromhex].
    destruct (is_space c0) eqn:Hsp.
    + intros Hs c [<-|Hc]; [by right | exact (IH2 c1 Hs c Hc)].
    + unfold is_hex_char.
      destruct (hex_value c0) as [hi|] eqn:Hhi; [|by intros [? ?]].
      destruct (hex_value c1) as [lo|] eqn:Hlo; [|by intros [? ?]].
      destruct (Byte.of_N (16 * hi + lo)); [|by intros [? ?]].
      destruct (fromhex s) as [rest|] eqn:Hrest; [|by intros [? ?]].
      intros _ c [<-|[<-|Hc]]; [left; by rewrite Hhi | left; by rewrite Hlo |].
      apply IH1; [eauto | done].
Qed.


Lemma ObjectId_parse_foreign (text : string) :
  foreign_id text → ObjectId_parse text = None.
Proof.
  unfold ObjectId_parse. intros [Hlen|(c & Hc & Hhex & Hsp)].
  - by apply Nat.eqb_neq in Hlen as ->.
  - destruct (String.length text =? 24)%nat; [|done].
    destruct (fromhex text) as [bs|] eqn:E; [|done]. exfalso.
    destruct (fromhex_chars text) as [Hch _].
    destruct (Hch (mk_is_Some _ _ E) c Hc); congruence.
Qed.

Lemma ObjectId_str_well_formed (oid : ObjectId) :
  oid_wf oid → well_formed_id (ObjectId_str oid).
Proof.
  unfold oid_wf. intros Hwf. split; [|apply all_hex_hexlify].
  unfold ObjectId_str. rewrite length_hexlify, Hwf. done.
Qed.

(** [ObjectId(str(oid)) == oid] for the 12-byte identifiers. *)
Lemma ObjectId_parse_str (oid : ObjectId) :
  oid_wf oid → ObjectId_parse (ObjectId_str oid) = Some oid.
Proof.
  unfold oid_wf, ObjectId_parse, ObjectId_str. intros Hwf.
  rewrite length_hexlify, Hwf. simpl Nat.eqb. cbv iota. apply fromhex_hexlify.
Qed.

Lemma oid_eqb_eq (a b : ObjectId) : oid_eqb a b = true ↔ a = b.
Proof.
  revert b. induction a as [|x a IH]; intros [|y b]; simpl; try (split; done).
  rewrite andb_true_iff, IH. split.
  - intros [->%Byte.byte_dec_bl ->]. done.
  - intros [= -> ->]. split; [by apply Byte.byte_dec_lb | done].
Qed.

(** *** The serializer *)

Lemma serialize_no_id (d : doc) : d !! "_id" = None → serialize d = d.
Proof. intros H. unfold serialize. by rewrite H. Qed.

Lemma serialize_falsy (d : doc) (v : value) :
  d !! "_id" = Some v → truthy v = false → serialize d = d.
Proof. intros H Hv. unfold serialize. by rewrite H, Hv. Qed.

Lemma serialize_truthy (d : doc) (v : value) :
  d !! "_id" = Some v → truthy v = true →
  serialize d = <["id" := VStr (py_str v)]> (delete "_id" d).
Proof. intros H Hv. unfold serialize. by rewrite H, Hv. Qed.

Lemma serialize_lookup_id (d : doc) (v : value) :
  d !! "_id" = Some v → truthy v = true → serialize d !! "_id" = None.
Proof.
  intros H Hv. rewrite (serialize_truthy d v) by done.
  rewrite lookup_insert_ne by done. apply lookup_delete_eq.
Qed.

(** C4: the serializer is idempotent, and it is the identity on a
    document that has no internal [_id] field. *)
Theorem C4_serialize_idempotent (d : doc) :
  serialize (serialize d) = serialize d
  ∧ (d !! "_id" = None → serialize d = d).
Proof.
  split; [|apply serialize_no_id].
  destruct (d !! "_id") as [v|] eqn:Hid.
  - destruct (truthy v) eqn:Hv.
    + apply serialize_no_id. by apply (serialize_lookup_id d v).
    + by rewrite !(serialize_falsy d v).
  - by rewrite !(serialize_no_id d).
Qed.

(** C10: when [_id] holds None, 0, False or the empty string the
    serializer returns the document as it is, [_id] still in place and no
    [id] key added; the rename to [id] happens exactly when the value of
    [_id] is truthy. *)
Theorem C10_serialize_falsy_id (d : doc) (v : value) :
  d !! "_id" = Some v →
  (v ∈ [VNone; VInt 0; VBool false; VStr ""] →
     serialize d = d ∧ serialize d !! "_id" = Some v
     ∧ serialize d !! "id" = d !! "id")
  ∧ (truthy v = false → serialize d = d)
  ∧ (truthy v = true →
     serialize d !! "_id" = None ∧ serialize d !! "id" = Some (VStr (py_str v))).
Proof.
  intros Hid. split; [|split].
  - intros Hv. assert (truthy v = false) as Hf.
    { set_unfold in Hv. destruct Hv as [->|[->|[->|[->|[]]]]]; done. }
    rewrite (serialize_falsy d v) by done. done.
  - by apply serialize_falsy.
  - intros Hv. split; [by apply (serialize_lookup_id d v)|].
    rewrite (serialize_truthy d v) by done. apply lookup_insert_eq.
Qed.

Lemma to_object_id_foreign (id_str : string) :
  foreign_id id_str →
  to_object_id id_str = Raise (HTTPException 400 "Invalid ID format").
Proof.
  intros Hn. unfold to_object_id. by rewrite ObjectId_parse_foreign.
Qed.

Lemma to_object_id_parsed (id_str : string) (oid : ObjectId) :
  ObjectId_parse id_str = Some oid → to_object_id id_str = Return oid.
Proof. intros H. unfold to_object_id. by rewrite H. Qed.

(** C2, as the code has it: an identifier text that is not 24 characters
    long, or that holds a character that is neither a hexadecimal digit
    nor ASCII whitespace, is answered with 400 by the two project routes
    whatever the state of the store, and by the two CV routes whenever
    the store is available; the handle is left as it was. *)
Theorem C2_malformed_id_400 (db : option Database) (id_str : string)
    (cv : Cv.t) (pr : Project.t) :
  foreign_id id_str →
  update_project id_str pr db = (Raise (HTTPException 400 "Invalid ID format"), db)
  ∧ delete_project id_str db = (Raise (HTTPException 400 "Invalid ID format"), db)
  ∧ (is_Some db →
     update_cv id_str cv db = (Raise (HTTPException 400 "Invalid ID format"), db)
     ∧ delete_cv id_str db = (Raise (HTTPException 400 "Invalid ID format"), db)).
Proof.
  intros Hn. pose proof (to_object_id_foreign id_str Hn) as Hid.
  repeat split.
  - unfold update_project. run. by rewrite Hid.
  - unfold delete_project. run. by rewrite Hid.
  - destruct H as [s ->]. unfold update_cv. run. by rewrite Hid.
  - destruct H as [s ->]. unfold delete_cv. run. by rewrite Hid.
Qed.

(** *** Identifier-keyed operations that match nothing *)

Lemma matches_id_true (oid : ObjectId) (d : doc) :
  matches (Q_id oid) d = true ↔ d !! "_id" = Some (VOid oid).
Proof.
  simpl. destruct (d !! "_id") as [[]|]; try (split; done).
  rewrite oid_eqb_eq. split; congruence.
Qed.

Lemma no_match_Forall (oid : ObjectId) (c : list doc) :
  (∀ d, d ∈ c → d !! "_id" ≠ Some (VOid oid)) →
  Forall (λ d, matches (Q_id oid) d = false) c.
Proof.
  intros H. apply Forall_forall. intros d Hd.
  destruct (matches (Q_id oid) d) eqn:E; [|done].
  apply matches_id_true in E. by apply H in E.
Qed.

Lemma update_one_no_match (q : query) (fields : doc) (c : list doc) :
  Forall (λ d, matches q d = false) c → update_one q fields c = Return (O, c).
Proof.
  induction 1 as [|d c Hd _ IH]; simpl; [done|]. by rewrite Hd, IH.
Qed.

Lemma delete_one_no_match (q : query) (c : list doc) :
  Forall (λ d, matches q d = false) c → delete_one q c = (O, c).
Proof.
  induction 1 as [|d c Hd _ IH]; simpl; [done|]. by rewrite Hd, IH.
Qed.


(** C5, as the code has it: with no store, the guarded CV handlers raise an
    explicit 500, while [update_project] and [delete_project], which lack
    the guard, end in an [AttributeError] no handler catches (well-formed
    identifier) or answer 400 (malformed identifier). *)
Theorem C5_project_routes_unguarded (cv : Cv.t) (pr : Project.t) :
  let oid_text := "ffffffffffffffffffffffff" in
  fst (get_cv None) = Raise (HTTPException 500 "Database not available")
  ∧ fst (update_cv oid_text cv None) = Raise (HTTPException 500 "Database not available")
  ∧ fst (delete_cv oid_text None) = Raise (HTTPException 500 "Database not available")
  ∧ fst (update_project oid_text pr None)
    = Raise (AttributeError "'NoneType' object has no attribute 'project'")
  ∧ explicit_error (fst (update_project oid_text pr None)) = false
  ∧ fst (delete_project oid_text None)
    = Raise (AttributeError "'NoneType' object has no attribute 'project'")
  ∧ explicit_error (fst (delete_project oid_text None)) = false
  ∧ status_of (fst (delete_project "not-an-id" None)) = 400.
Proof. repeat split. Qed.

(** C9: when the store answers, listing with a limit N ≥ 0 returns at
    most N documents; with the store available it does answer; and a
    request without the [limit] parameter is served with limit 50. *)
Theorem C9_list_projects_limit (n : Z) :
  0 ≤ n →
  (∀ db docs, fst (list_projects n db) = Return docs → Z.of_nat (length docs) ≤ n)
  ∧ (∀ s, ∃ docs, list_projects n (Some s) = (Return docs, Some s))
  ∧ (∀ db, GET_projects None db = list_projects 50 db)
  ∧ (∀ db, GET_projects (Some n) db = list_projects n db).
Proof.
  intros Hn. repeat split; [|eexists; reflexivity].
  intros [s|] docs; unfold list_projects, get_documents; run; [|done].
  intros [= <-]. rewrite length_fmap, length_take. lia.
Qed.

(** *** The most recent CV *)

Lemma find_all (c : list doc) : find Q_all c = c.
Proof.
  unfold find. induction c as [|d c IH]; simpl; [done | by rewrite IH].
Qed.

Lemma bson_le_refl (a : value) : bson_le a a = true.
Proof using bson_le_total. by destruct (bson_le_total a a). Qed.

Lemma cursor_sort_nonempty (key : string) (direction : Z) (c : list doc) :
  c ≠ [] → is_Some (head (cursor_sort key direction c)).
Proof.
  destruct c as [|x c]; [done|]. intros _. cbn [cursor_sort foldr].
  destruct (foldr (insert_sorted key direction) [] c) as [|w l]; simpl; [eauto|].
  destruct (precedes key direction x w); simpl; eauto.
Qed.

Lemma cursor_sort_nil (key : string) (direction : Z) (c : list doc) :
  cursor_sort key direction c = [] → c = [].
Proof.
  intros Hs. destruct c as [|x c]; [done|].
  destruct (cursor_sort_nonempty key direction (x :: c)) as [d Hd]; [done|].
  by rewrite Hs in Hd.
Qed.

(** The first document of a descending sort carries a greatest key. *)
Lemma head_cursor_sort_desc (key : string) (c : list doc) (d : doc) :
  head (cursor_sort key (-1) c) = Some d →
  d ∈ c ∧ ∀ d', d' ∈ c → bson_le (sort_key key d') (sort_key key d) = true.
Proof using bson_le_total bson_le_trans.
  revert d. induction c as [|x c IH]; intros d; [done|].
  cbn [cursor_sort foldr]. fold (cursor_sort key (-1) c).
  destruct (cursor_sort key (-1) c) as [|y l] eqn:Hs.
  - apply cursor_sort_nil in Hs as ->. simpl. intros [= <-].
    split; [left|]. intros d' ->%list_elem_of_singleton. apply bson_le_refl.
  - destruct (IH y eq_refl) as [Hin Hmax]. cbn [insert_sorted].
    destruct (precedes key (-1) x y) eqn:Hxy;
      unfold precedes in Hxy; simpl in Hxy; simpl; intros [= <-].
    + split; [left|]. intros d' [->|Hd']%elem_of_cons; [apply bson_le_refl|].
      eapply bson_le_trans; [by apply Hmax | done].
    + split; [by right|]. intros d' [->|Hd']%elem_of_cons; [|by apply Hmax].
      destruct (bson_le_total (sort_key key x) (sort_key key y)); congruence.
Qed.

(** C6: with the store available, GET /api/cv answers null on an empty
    collection, and otherwise the serialized form of one stored CV whose
    [created_at] key is greatest among all stored CVs (the head of the
    descending sort, limited to 1). *)
Theorem C6_get_cv_most_recent (s : Database) :
  (collection s "cv" = [] → get_cv (Some s) = (Return None, Some s))
  ∧ (collection s "cv" ≠ [] →
     ∃ d, d ∈ collection s "cv"
       ∧ get_cv (Some s) = (Return (Some (serialize d)), Some s)
       ∧ ∀ d', d' ∈ collection s "cv" →
           bson_le (sort_key "created_at" d') (sort_key "created_at" d) = true).
Proof using bson_le_total bson_le_trans.
  unfold get_cv. run. rewrite find_all. split.
  - intros ->. done.
  - intros Hne.
    destruct (cursor_sort_nonempty "created_at" (-1) _ Hne) as [d Hd].
    destruct (head_cursor_sort_desc _ _ _ Hd) as [Hin Hmax].
    exists d. split; [done|]. split; [|done].
    destruct (cursor_sort "created_at" (-1) (collection s "cv")) as [|d0 l]; [done|].
    simpl in Hd. injection Hd as ->. done.
Qed.

(** *** Identifier-keyed operations that match *)

Lemma collection_insert (s : Database) (name : string) (c : list doc) :
  collection (<[name := c]> s) name = c.
Proof. unfold collection. by rewrite lookup_insert_eq. Qed.

Lemma find_one_app_last (q : query) (c : list doc) (d : doc) :
  Forall (λ d, matches q d = false) c → matches q d = true →
  find_one q (c ++ [d]) = Some d.
Proof.
  intros Hc Hd. unfold find_one.
  induction Hc as [|x c Hx _ IH]; simpl; [by rewrite Hd | by rewrite Hx].
Qed.

Lemma delete_one_app_last (q : query) (c : list doc) (d : doc) :
  Forall (λ d, matches q d = false) c → matches q d = true →
  delete_one q (c ++ [d]) = (1%nat, c).
Proof.
  intros Hc Hd.
  induction Hc as [|x c Hx _ IH]; simpl; [by rewrite Hd | by rewrite Hx, IH].
Qed.

(** A [$set] of encodable fields that does not write [_id] rewrites the
    first match in place: the documents around it stay, and the same
    query now finds the rewritten document. *)
Lemma update_one_found (oid : ObjectId) (fields : doc) (c : list doc) (d : doc) :
  fields !! "_id" = None → encodable (VDict fields) = true →
  find_one (Q_id oid) c = Some d →
  ∃ l1 l2, c = l1 ++ d :: l2
    ∧ update_one (Q_id oid) fields c = Return (1%nat, l1 ++ (fields ∪ d) :: l2)
    ∧ find_one (Q_id oid) (l1 ++ (fields ∪ d) :: l2) = Some (fields ∪ d).
Proof.
  intros Hf Henc. unfold find_one.
  induction c as [|x c IH]; [done|]. cbn [List.find update_one].
  destruct (matches (Q_id oid) x) eqn:Hx.
  - intros [= ->]. rewrite Henc. exists [], c. repeat split. simpl.
    replace (match (fields ∪ d) !! "_id" with
             | Some (VOid o) => oid_eqb o oid | _ => false end)
      with (matches (Q_id oid) d); [by rewrite Hx|].
    simpl. by rewrite lookup_union_r.
  - intros Hd. destruct (IH Hd) as (l1 & l2 & -> & -> & Hfind).
    exists (x :: l1), l2. repeat split. cbn [app List.find]. by rewrite Hx.
Qed.

(** The driver refuses fields that hold a URL object when it comes to
    write them over the document that matched. *)
Lemma update_one_refused (q : query) (fields : doc) (c : list doc) (d : doc) :
  encodable (VDict fields) = false → find_one q c = Some d →
  update_one q fields c = Raise InvalidDocument.
Proof.
  intros Henc. unfold find_one.
  induction c as [|x c IH]; [done|]. cbn [List.find update_one].
  destruct (matches q x); [by rewrite Henc|]. intros Hd. by rewrite IH.
Qed.

(** *** What a dumped payload holds *)

Lemma encodable_dict (d : doc) :
  encodable (VDict d) = true ↔ ∀ k v, d !! k = Some v → encodable v = true.
Proof.
  rewrite <- (map_Forall_lookup (λ _ v, encodable v = true)). cbn [encodable].
  apply (map_fold_weak_ind (λ r m, r = true ↔ map_Forall (λ _ v, encodable v = true) m)).
  - split; [intros _; apply map_Forall_empty | done].
  - intros i x m r Hi IH. rewrite andb_true_iff, IH, map_Forall_insert by done. done.
Qed.

Lemma encodable_texts (l : list string) : encodable (VList (VStr <$> l)) = true.
Proof. cbn [encodable]. induction l as [|x l IH]; [done|]. by rewrite fmap_cons. Qed.

Lemma encodable_optional_text (o : option string) :
  encodable (dump_optional VStr o) = true.
Proof. by destruct o. Qed.

Ltac dumped_entries H :=
  apply elem_of_list_to_map_2 in H;
  repeat (apply elem_of_cons in H as [[= -> ->]|H]);
  [..|by apply elem_of_nil in H].

Lemma encodable_ExperienceItem (e : ExperienceItem.t) :
  encodable (VDict (ExperienceItem.dump e)) = true.
Proof.
  apply encodable_dict. intros k v H. dumped_entries H;
    (done || apply encodable_optional_text).
Qed.

Lemma encodable_EducationItem (e : EducationItem.t) :
  encodable (VDict (EducationItem.dump e)) = true.
Proof.
  apply encodable_dict. intros k v H. dumped_entries H;
    (done || apply encodable_optional_text).
Qed.

Lemma encodable_items {A} (dump : A → doc) (l : list A) :
  (∀ e, encodable (VDict (dump e)) = true) →
  encodable (VList ((λ e, VDict (dump e)) <$> l)) = true.
Proof.
  intros Hd. cbn [encodable]. induction l as [|x l IH]; [done|].
  rewrite fmap_cons. cbn [forallb]. by rewrite Hd, IH.
Qed.

(** A dumped payload is encodable exactly when it sets no URL field. *)
Lemma Cv_dump_encodable (cv : Cv.t) :
  encodable (VDict (Cv.dump cv)) = negb (Cv.sets_url cv).
Proof.
  unfold Cv.sets_url.
  destruct (Cv.website cv) as [u|] eqn:Hw;
    [|destruct (Cv.avatar_url cv) as [u|] eqn:Ha].
  - apply not_true_is_false. intros Henc.
    assert (encodable (VUrl u) = true) as Hu; [|done].
    apply (proj1 (encodable_dict _) Henc "website"). unfold Cv.dump.
    by rewrite Hw.
  - apply not_true_is_false. intros Henc.
    assert (encodable (VUrl u) = true) as Hu; [|done].
    apply (proj1 (encodable_dict _) Henc "avatar_url"). unfold Cv.dump.
    by rewrite Ha.
  - apply encodable_dict. intros k v H. unfold Cv.dump in H. rewrite Hw, Ha in H.
    dumped_entries H;
      first [ done | apply encodable_optional_text | apply encodable_texts
            | apply encodable_items, encodable_ExperienceItem
            | apply encodable_items, encodable_EducationItem ].
Qed.

Lemma Project_dump_encodable (pr : Project.t) :
  encodable (VDict (Project.dump pr)) = negb (Project.sets_url pr).
Proof.
  unfold Project.sets_url.
  destruct (Project.url pr) as [u|] eqn:Hu;
    [|destruct (Project.repo_url pr) as [u|] eqn:Hr;
      [|destruct (Project.image_url pr) as [u|] eqn:Hi]].
  - apply not_true_is_false. intros Henc.
    assert (encodable (VUrl u) = true) as Hv; [|done].
    apply (proj1 (encodable_dict _) Henc "url"). unfold Project.dump.
    by rewrite Hu.
  - apply not_true_is_false. intros Henc.
    assert (encodable (VUrl u) = true) as Hv; [|done].
    apply (proj1 (encodable_dict _) Henc "repo_url"). unfold Project.dump.
    by rewrite Hr.
  - apply not_true_is_false. intros Henc.
    assert (encodable (VUrl u) = true) as Hv; [|done].
    apply (proj1 (encodable_dict _) Henc "image_url"). unfold Project.dump.
    by rewrite Hi.
  - apply encodable_dict. intros k v H. unfold Project.dump in H.
    rewrite Hu, Hr, Hi in H.
    dumped_entries H;
      first [ done | apply encodable_optional_text | apply encodable_texts ].
Qed.

Lemma Cv_dump_other (cv : Cv.t) (k : string) : k ∉ Cv.fields → Cv.dump cv !! k = None.
Proof. intros Hk. by apply not_elem_of_list_to_map_1. Qed.

Lemma Cv_dump_field (cv : Cv.t) (k : string) : k ∈ Cv.fields → is_Some (Cv.dump cv !! k).
Proof.
  unfold Cv.fields. intros Hk. set_unfold in Hk.
  repeat (destruct Hk as [->|Hk]; [eexists; reflexivity|]). done.
Qed.

Lemma Project_dump_other (pr : Project.t) (k : string) :
  k ∉ Project.fields → Project.dump pr !! k = None.
Proof. intros Hk. by apply not_elem_of_list_to_map_1. Qed.

Lemma Project_dump_field (pr : Project.t) (k : string) :
  k ∈ Project.fields → is_Some (Project.dump pr !! k).
Proof.
  unfold Project.fields. intros Hk. set_unfold in Hk.
  repeat (destruct Hk as [->|Hk]; [eexists; reflexivity|]). done.
Qed.

(** C1, as the code has it: with the store available, a PUT on a stored
    document whose payload sets no URL field writes every field of the
    schema from the validated payload (so a field the body left out takes
    its schema default) and leaves every key outside the schema, such as
    [_id], as it was; the answer is the serialized form of the document
    now stored. *)
Theorem C1_update_sets_schema_fields (s : Database) (id_str : string)
    (oid : ObjectId) (d : doc) (cv : Cv.t) (pr : Project.t) :
  ObjectId_parse id_str = Some oid →
  (find_one (Q_id oid) (collection s "cv") = Some d →
   Cv.sets_url cv = false →
     ∃ d' s', update_cv id_str cv (Some s) = (Return (serialize d'), Some s')
       ∧ find_one (Q_id oid) (collection s' "cv") = Some d'
       ∧ (∀ k, k ∈ Cv.fields → d' !! k = Cv.dump cv !! k)
       ∧ (∀ k, k ∉ Cv.fields → d' !! k = d !! k))
  ∧ (find_one (Q_id oid) (collection s "project") = Some d →
     Project.sets_url pr = false →
     ∃ d' s', update_project id_str pr (Some s) = (Return (serialize d'), Some s')
       ∧ find_one (Q_id oid) (collection s' "project") = Some d'
       ∧ (∀ k, k ∈ Project.fields → d' !! k = Project.dump pr !! k)
       ∧ (∀ k, k ∉ Project.fields → d' !! k = d !! k)).
Proof.
  intros Hoid. pose proof (to_object_id_parsed _ _ Hoid) as Hid.
  split; intros Hd Hurl.
  - assert (encodable (VDict (Cv.dump cv)) = true) as Henc
      by by rewrite Cv_dump_encodable, Hurl.
    destruct (update_one_found oid (Cv.dump cv) _ d eq_refl Henc Hd)
      as (l1 & l2 & Hc & Hup & Hfind).
    exists (Cv.dump cv ∪ d), (<["cv" := l1 ++ (Cv.dump cv ∪ d) :: l2]> s).
    split; [|split; [|split]].
    + unfold update_cv. run. rewrite Hid. unfold model_dump, Cv_model.
      rewrite Hup. cbn [Nat.eqb]. by rewrite collection_insert, Hfind.
    + by rewrite collection_insert.
    + intros k [v Hv]%(Cv_dump_field cv).
      rewrite Hv. by apply lookup_union_Some_l.
    + intros k Hk%(Cv_dump_other cv). by apply lookup_union_r.
  - assert (encodable (VDict (Project.dump pr)) = true) as Henc
      by by rewrite Project_dump_encodable, Hurl.
    destruct (update_one_found oid (Project.dump pr) _ d eq_refl Henc Hd)
      as (l1 & l2 & Hc & Hup & Hfind).
    exists (Project.dump pr ∪ d),
      (<["project" := l1 ++ (Project.dump pr ∪ d) :: l2]> s).
    split; [|split; [|split]].
    + unfold update_project. run. rewrite Hid. unfold model_dump, Project_model.
      rewrite Hup. cbn [Nat.eqb]. by rewrite collection_insert, Hfind.
    + by rewrite collection_insert.
    + intros k [v Hv]%(Project_dump_field pr).
      rewrite Hv. by apply lookup_union_Some_l.
    + intros k Hk%(Project_dump_other pr). by apply lookup_union_r.
Qed.

(** C8: on an available store, POST /api/projects with {"title":"X"}
    answers a body with title "X", an empty [tech_stack], [featured]
    false and a 24-hex-character [id] (the store assigning a 12-byte
    identifier no stored project carries); DELETE with that id answers
    {"status":"deleted","id":id}; a second DELETE with it answers 404. *)
Theorem C8_project_scenario (s : Database) (new_id : ObjectId) :
  oid_wf new_id →
  (∀ d, d ∈ collection s "project" → d !! "_id" ≠ Some (VOid new_id)) →
  ∃ (body : doc) (id : string) (s1 s2 : Database),
    POST_projects new_id (JObj {[ "title" := JStr "X" ]}) (Some s)
      = (Return body, Some s1)
    ∧ body !! "title" = Some (VStr "X")
    ∧ body !! "tech_stack" = Some (VList [])
    ∧ body !! "featured" = Some (VBool false)
    ∧ body !! "id" = Some (VStr id)
    ∧ well_formed_id id
    ∧ delete_project id (Some s1)
      = (Return (list_to_map [("status", VStr "deleted"); ("id", VStr id)]), Some s2)
    ∧ delete_project id (Some s2)
      = (Raise (HTTPException 404 "Project not found"), Some s2).
Proof.
  intros Hwf Hfresh.
  set (p := Project.mk "X" None [] None None None false).
  set (stored := <["_id" := VOid new_id]> (Project.dump p) : doc).
  set (c := collection s "project").
  set (s1 := <["project" := c ++ [stored]]> s : Database).
  assert (Forall (λ d, matches (Q_id new_id) d = false) c) as Hno
    by by apply no_match_Forall.
  assert (matches (Q_id new_id) stored = true) as Hst
    by (apply matches_id_true; apply lookup_insert_eq).
  pose proof (ObjectId_parse_str _ Hwf) as Hparse.
  pose proof (to_object_id_parsed _ _ Hparse) as Hid.
  exists (serialize stored), (ObjectId_str new_id), s1, (<["project" := c]> s1).
  assert (serialize stored
          = <["id" := VStr (ObjectId_str new_id)]> (delete "_id" stored)) as Hser.
  { apply (serialize_truthy stored (VOid new_id)); [apply lookup_insert_eq | done]. }
  split; [|split; [|split; [|split; [|split; [|split; [|split]]]]]].
  - unfold POST_projects, with_body.
    change (validate_Project (JObj {[ "title" := JStr "X" ]})) with (Some p).
    unfold create_project, create_document. run.
    unfold model_dump, Project_model. fold c stored s1.
    rewrite Hparse. cbn [option_bind]. unfold s1 at 1.
    by rewrite collection_insert, (find_one_app_last _ _ _ Hno Hst).
  - rewrite Hser. unfold stored.
    rewrite lookup_insert_ne, lookup_delete_ne, lookup_insert_ne by done.
    reflexivity.
  - rewrite Hser. unfold stored.
    rewrite lookup_insert_ne, lookup_delete_ne, lookup_insert_ne by done.
    reflexivity.
  - rewrite Hser. unfold stored.
    rewrite lookup_insert_ne, lookup_delete_ne, lookup_insert_ne by done.
    reflexivity.
  - rewrite Hser. apply lookup_insert_eq.
  - by apply ObjectId_str_well_formed.
  - unfold delete_project. run. rewrite Hid. unfold s1 at 1.
    by rewrite collection_insert, (delete_one_app_last _ _ _ Hno Hst).
  - unfold delete_project. run. rewrite Hid.
    rewrite collection_insert, (delete_one_no_match _ _ Hno). cbn [Nat.eqb].
    by rewrite insert_insert_eq.
Qed.

(** *** Validation *)

Lemma reflects_str : reflects pyd_str is_text.
Proof.
  intros v. destruct v; simpl; try (intros [? ?]; done). by eexists.
Qed.

Lemma reflects_email : reflects pyd_email is_email.
Proof.
  intros v. unfold pyd_email, is_email.
  destruct v; simpl; try (intros (? & ? & ?); done).
  destruct (email_validator s) eqn:E.
  - eexists. split; [done|]. rewrite E. eauto.
  - intros (s' & [= <-] & [? ?]). congruence.
Qed.

Lemma reflects_url : reflects pyd_url is_url.
Proof.
  intros v. unfold pyd_url, is_url.
  destruct v; simpl; try (intros (? & ? & ?); done).
  destruct (url_validator s) eqn:E.
  - eexists. split; [done|]. rewrite E. eauto.
  - intros (s' & [= <-] & [? ?]). congruence.
Qed.

Lemma reflects_bool : reflects bool_validator is_bool.
Proof.
  intros v. unfold is_bool. destruct (bool_validator v); [eauto|].
  intros [? ?]. done.
Qed.

Lemma reflects_optional {A} (f : json → option A) (P : json → Prop) :
  reflects f P → reflects (pyd_optional f) (is_optional P).
Proof.
  intros Hf v. specialize (Hf v). unfold pyd_optional, is_optional.
  destruct v; try (by left);
    (destruct (f _); simpl; [by right | intros [?|?]; done]).
Qed.

Lemma reflects_mapM {A} (f : json → option A) (P : json → Prop) (l : list json) :
  reflects f P →
  match mapM f l with Some _ => Forall P l | None => ¬ Forall P l end.
Proof.
  intros Hf. induction l as [|v l IH]; simpl; [constructor|].
  specialize (Hf v). destruct (f v); simpl.
  - destruct (mapM f l); simpl.
    + by constructor.
    + intros HF. apply IH. by inversion HF.
  - intros HF. apply Hf. by inversion HF.
Qed.

Lemma reflects_list {A} (f : json → option A) (P : json → Prop) :
  reflects f P → reflects (pyd_list f) (is_list_of P).
Proof.
  intros Hf v. unfold pyd_list, is_list_of.
  destruct v; try (intros (? & ? & ?); done).
  pose proof (reflects_mapM f P l Hf) as Hl. destruct (mapM f l).
  - eauto.
  - intros (l' & [= <-] & HF). done.
Qed.

(** What the failure of one field's validator says about the body. *)
Lemma required_str_None (o : gmap string json) (k : string) :
  required pyd_str o k = None →
  absent_or_null (JObj o) k ∨ ∃ v, field (JObj o) k = Some v ∧ ¬ is_text v.
Proof.
  unfold required, absent_or_null, field.
  destruct (o !! k) as [v|]; simpl; [|by left; left].
  intros Hv. right. exists v. split; [done|].
  pose proof (reflects_str v) as Hr. by rewrite Hv in Hr.
Qed.

Lemma defaulted_None {A} (f : json → option A) (P : json → Prop) (dflt : A)
    (o : gmap string json) (k : string) :
  reflects f P → defaulted f dflt o k = None →
  ∃ v, field (JObj o) k = Some v ∧ ¬ P v.
Proof.
  intros Hf. unfold defaulted, field.
  destruct (o !! k) as [v|]; [|done].
  intros Hv. exists v. split; [done|]. specialize (Hf v). by rewrite Hv in Hf.
Qed.

(** And the converse: what a defect of the body does to the validator. *)
Lemma required_str_absent (o : gmap string json) (k : string) :
  absent_or_null (JObj o) k → required pyd_str o k = None.
Proof. unfold required, absent_or_null, field. by intros [->| ->]. Qed.

Lemma required_bad {A} (f : json → option A) (P : json → Prop)
    (o : gmap string json) (k : string) (v : json) :
  reflects f P → o !! k = Some v → ¬ P v → required f o k = None.
Proof.
  intros Hf Hk Hv. unfold required. rewrite Hk. simpl.
  specialize (Hf v). by destruct (f v).
Qed.

Lemma defaulted_bad {A} (f : json → option A) (P : json → Prop) (dflt : A)
    (o : gmap string json) (k : string) (v : json) :
  reflects f P → o !! k = Some v → ¬ P v → defaulted f dflt o k = None.
Proof.
  intros Hf Hk Hv. unfold defaulted. rewrite Hk.
  specialize (Hf v). by destruct (f v).
Qed.

Lemma not_object_violates (req : list string)
    (types : list (string * (json → Prop))) (j : json) (k : string) :
  k ∈ req → (∀ o, j ≠ JObj o) → violates req types j.
Proof.
  intros Hk Hj. left. exists k. split; [done|]. left.
  destruct j; try done. by destruct (Hj o).
Qed.

(** A failed step fails the whole chain of field validators. *)
Ltac chain_fails :=
  repeat match goal with
         | |- (None ≫= _) = None => reflexivity
         | |- (?m ≫= _) = None => destruct m; simpl; [|done]
         end;
  try done.

Create HintDb pyd.
#[local] Hint Resolve reflects_str reflects_email reflects_url reflects_bool : pyd.
#[local] Hint Resolve reflects_optional reflects_list : pyd.

Ltac in_table := repeat first [apply list_elem_of_here | apply list_elem_of_further].

(** A required text field: on failure, name the violation. *)
Ltac req_step k :=
  let E := fresh "E" in
  destruct (required pyd_str _ k) eqn:E; simpl;
  [| intros _; destruct (required_str_None _ _ E) as [?|(?v & ? & ?)];
     [ left; exists k; split; [in_table | done]
     | right; exists k, is_text; eexists; split; [in_table | done] ] ].

(** A field with a default. *)
Ltac dflt_step k P :=
  let E := fresh "E" in
  destruct (defaulted _ _ _ k) eqn:E; simpl;
  [| intros _;
     destruct (defaulted_None _ P _ _ _ ltac:(eauto with pyd) E) as (?v & ? & ?);
     right; exists k, P; eexists; split; [in_table | done] ].

(** A malformed field fails its validator, and with it the chain. *)
Ltac bad_field Hf Hv :=
  match type of Hv with
  | ¬ ?P ?v =>
      let Hr := fresh "Hr" in
      eassert (reflects _ P) as Hr by eauto with pyd;
      first [ rewrite (required_bad _ _ _ _ _ Hr Hf Hv)
            | rewrite (defaulted_bad _ _ _ _ _ _ Hr Hf Hv) ];
      chain_fails
  end.

Ltac missing_field Habs := rewrite (required_str_absent _ _ Habs); chain_fails.

Lemma validate_ExperienceItem_None (j : json) :
  validate_ExperienceItem j = None
  ↔ violates ExperienceItem_required ExperienceItem_types j.
Proof.
  split.
  - destruct j as [| | | | | |o];
      try (intros _; apply (not_object_violates _ _ _ "role"); [in_table | done]).
    unfold validate_ExperienceItem.
    req_step "role". req_step "company". req_step "start_date".
    dflt_step "end_date" (is_optional is_text).
    dflt_step "description" (is_optional is_text).
    done.
  - intros [(k & Hk & Habs) | (k & P & v & Hk & Hf & Hv)];
      (destruct j as [| | | | | |o]; try done); unfold validate_ExperienceItem.
    + unfold ExperienceItem_required in Hk. set_unfold in Hk.
      destruct Hk as [->|[->|[->|[]]]]; missing_field Habs.
    + unfold ExperienceItem_types in Hk. set_unfold in Hk.
      repeat (destruct Hk as [[= -> ->]|Hk]; [bad_field Hf Hv|]). done.
Qed.

Lemma validate_EducationItem_None (j : json) :
  validate_EducationItem j = None
  ↔ violates EducationItem_required EducationItem_types j.
Proof.
  split.
  - destruct j as [| | | | | |o];
      try (intros _; apply (not_object_violates _ _ _ "school"); [in_table | done]).
    unfold validate_EducationItem.
    req_step "school". req_step "degree".
    dflt_step "start_year" (is_optional is_text).
    dflt_step "end_year" (is_optional is_text).
    done.
  - intros [(k & Hk & Habs) | (k & P & v & Hk & Hf & Hv)];
      (destruct j as [| | | | | |o]; try done); unfold validate_EducationItem.
    + unfold EducationItem_required in Hk. set_unfold in Hk.
      destruct Hk as [->|[->|[]]]; missing_field Habs.
    + unfold EducationItem_types in Hk. set_unfold in Hk.
      repeat (destruct Hk as [[= -> ->]|Hk]; [bad_field Hf Hv|]). done.
Qed.

Lemma reflects_ExperienceItem : reflects validate_ExperienceItem is_ExperienceItem.
Proof.
  intros v. unfold is_ExperienceItem.
  destruct (validate_ExperienceItem v) eqn:E.
  - intros Hv%validate_ExperienceItem_None. congruence.
  - intros Hn. by apply Hn, validate_ExperienceItem_None.
Qed.

Lemma reflects_EducationItem : reflects validate_EducationItem is_EducationItem.
Proof.
  intros v. unfold is_EducationItem.
  destruct (validate_EducationItem v) eqn:E.
  - intros Hv%validate_EducationItem_None. congruence.
  - intros Hn. by apply Hn, validate_EducationItem_None.
Qed.

#[local] Hint Resolve reflects_ExperienceItem reflects_EducationItem : pyd.

Lemma validate_Cv_None (j : json) :
  validate_Cv j = None ↔ violates Cv_required Cv_types j.
Proof.
  split.
  - destruct j as [| | | | | |o];
      try (intros _; apply (not_object_violates _ _ _ "name"); [in_table | done]).
    unfold validate_Cv.
    req_step "name". req_step "title".
    dflt_step "summary" (is_optional is_text).
    dflt_step "location" (is_optional is_text).
    dflt_step "email" (is_optional is_email).
    dflt_step "phone" (is_optional is_text).
    dflt_step "skills" (is_list_of is_text).
    dflt_step "experience" (is_list_of is_ExperienceItem).
    dflt_step "education" (is_list_of is_EducationItem).
    dflt_step "website" (is_optional is_url).
    dflt_step "avatar_url" (is_optional is_url).
    done.
  - intros [(k & Hk & Habs) | (k & P & v & Hk & Hf & Hv)];
      (destruct j as [| | | | | |o]; try done); unfold validate_Cv.
    + unfold Cv_required in Hk. set_unfold in Hk.
      destruct Hk as [->|[->|[]]]; missing_field Habs.
    + unfold Cv_types in Hk. set_unfold in Hk.
      repeat (destruct Hk as [[= -> ->]|Hk]; [bad_field Hf Hv|]). done.
Qed.

Lemma validate_Project_None (j : json) :
  validate_Project j = None ↔ violates Project_required Project_types j.
Proof.
  split.
  - destruct j as [| | | | | |o];
      try (intros _; apply (not_object_violates _ _ _ "title"); [in_table | done]).
    unfold validate_Project.
    req_step "title".
    dflt_step "description" (is_optional is_text).
    dflt_step "tech_stack" (is_list_of is_text).
    dflt_step "url" (is_optional is_url).
    dflt_step "repo_url" (is_optional is_url).
    dflt_step "image_url" (is_optional is_url).
    dflt_step "featured" is_bool.
    done.
  - intros [(k & Hk & Habs) | (k & P & v & Hk & Hf & Hv)];
      (destruct j as [| | | | | |o]; try done); unfold validate_Project.
    + unfold Project_required in Hk. set_unfold in Hk.
      destruct Hk as [->|[]]; missing_field Habs.
    + unfold Project_types in Hk. set_unfold in Hk.
      repeat (destruct Hk as [[= -> ->]|Hk]; [bad_field Hf Hv|]). done.
Qed.

(** A key outside the schema does not reach any field validator. *)
Ltac skip_key Hk :=
  unfold required, defaulted;
  rewrite !lookup_insert_ne by (intros ->; apply Hk; in_table);
  reflexivity.

Lemma validate_Cv_unknown (o : gmap string json) (k : string) (v : json) :
  k ∉ Cv.fields → validate_Cv (JObj (<[k := v]> o)) = validate_Cv (JObj o).
Proof. intros Hk. unfold validate_Cv, Cv.fields in *. skip_key Hk. Qed.

Lemma validate_Project_unknown (o : gmap string json) (k : string) (v : json) :
  k ∉ Project.fields →
  validate_Project (JObj (<[k := v]> o)) = validate_Project (JObj o).
Proof. intros Hk. unfold validate_Project, Project.fields in *. skip_key Hk. Qed.

(** C7: a write payload is rejected with 422 exactly when it violates
    the schema (a required field absent or null, or a field of the
    schema malformed); otherwise the handler runs on the validated
    record; and a key that is not in the schema changes nothing. *)
Theorem C7_validation_422 (body : json) :
  (validate_Cv body = None ↔ violates Cv_required Cv_types body)
  ∧ (validate_Project body = None ↔ violates Project_required Project_types body)
  ∧ (∀ B (h : Cv.t → M B) db,
       violates Cv_required Cv_types body →
       with_body validate_Cv h body db = (Raise RequestValidationError, db)
       ∧ status_of (fst (with_body validate_Cv h body db)) = 422)
  ∧ (∀ B (h : Project.t → M B) db,
       violates Project_required Project_types body →
       with_body validate_Project h body db = (Raise RequestValidationError, db)
       ∧ status_of (fst (with_body validate_Project h body db)) = 422)
  ∧ (∀ B (h : Cv.t → M B),
       ¬ violates Cv_required Cv_types body →
       ∃ payload, validate_Cv body = Some payload
         ∧ with_body validate_Cv h body = h payload)
  ∧ (∀ B (h : Project.t → M B),
       ¬ violates Project_required Project_types body →
       ∃ payload, validate_Project body = Some payload
         ∧ with_body validate_Project h body = h payload)
  ∧ (∀ o k v, body = JObj o → k ∉ Cv.fields →
       validate_Cv (JObj (<[k := v]> o)) = validate_Cv body)
  ∧ (∀ o k v, body = JObj o → k ∉ Project.fields →
       validate_Project (JObj (<[k := v]> o)) = validate_Project body).
Proof.
  split; [apply validate_Cv_None|]. split; [apply validate_Project_None|].
  split; [|split; [|split; [|split; [|split]]]].
  - intros B h db Hv%validate_Cv_None. unfold with_body. by rewrite Hv.
  - intros B h db Hv%validate_Project_None. unfold with_body. by rewrite Hv.
  - intros B h Hv. unfold with_body. destruct (validate_Cv body) eqn:E; [eauto|].
    by apply validate_Cv_None in E.
  - intros B h Hv. unfold with_body. destruct (validate_Project body) eqn:E; [eauto|].
    by apply validate_Project_None in E.
  - intros o k v -> Hk. by apply validate_Cv_unknown.
  - intros o k v -> Hk. by apply validate_Project_unknown.
Qed.

(* ===================================================================== *)
(** ** Further properties of the handlers *)
(* ===================================================================== *)

(** *** The first match of a query *)

Lemma find_one_None (q : query) (c : list doc) :
  find_one q c = None → no_match q c.
Proof.
  unfold find_one, no_match. induction c as [|x c IH]; simpl; [constructor|].
  destruct (matches q x) eqn:Hx; [done|]. intros H. constructor; auto.
Qed.

Lemma find_one_split (q : query) (c : list doc) (d : doc) :
  find_one q c = Some d →
  ∃ l1 l2, c = l1 ++ d :: l2 ∧ no_match q l1 ∧ matches q d = true.
Proof.
  unfold find_one, no_match. induction c as [|x c IH]; simpl; [done|].
  destruct (matches q x) eqn:Hx.
  - intros [= ->]. exists [], c. repeat split; [constructor | done].
  - intros (l1 & l2 & -> & Hl1 & Hd)%IH. exists (x :: l1), l2.
    repeat split; [by constructor | done].
Qed.

Lemma find_one_at (q : query) (l1 l2 : list doc) (d : doc) :
  no_match q l1 → matches q d = true → find_one q (l1 ++ d :: l2) = Some d.
Proof.
  unfold find_one. intros Hl1 Hd.
  induction Hl1 as [|x l1 Hx _ IH]; simpl; [by rewrite Hd | by rewrite Hx].
Qed.

Lemma update_one_at (q : query) (fields : doc) (l1 l2 : list doc) (d : doc) :
  encodable (VDict fields) = true → no_match q l1 → matches q d = true →
  update_one q fields (l1 ++ d :: l2) = Return (1%nat, l1 ++ (fields ∪ d) :: l2).
Proof.
  intros Henc Hl1 Hd.
  induction Hl1 as [|x l1 Hx _ IH]; cbn [app update_one];
    [by rewrite Hd, Henc | by rewrite Hx, IH].
Qed.

Lemma delete_one_at (q : query) (l1 l2 : list doc) (d : doc) :
  no_match q l1 → matches q d = true →
  delete_one q (l1 ++ d :: l2) = (1%nat, l1 ++ l2).
Proof.
  intros Hl1 Hd.
  induction Hl1 as [|x l1 Hx _ IH]; simpl; [by rewrite Hd | by rewrite Hx, IH].
Qed.

Lemma matches_union (oid : ObjectId) (fields d : doc) :
  fields !! "_id" = None → matches (Q_id oid) (fields ∪ d) = matches (Q_id oid) d.
Proof. intros Hf. simpl. by rewrite lookup_union_r. Qed.

Lemma union_union (fields d : doc) : fields ∪ (fields ∪ d) = fields ∪ d.
Proof. by rewrite (assoc_L (∪)), (idemp_L (∪)). Qed.

(** *** What each identifier-keyed handler does to an available store *)

Lemma update_cv_found (s : Database) (id_str : string) (oid : ObjectId)
    (cv : Cv.t) (l1 l2 : list doc) (d : doc) :
  ObjectId_parse id_str = Some oid → Cv.sets_url cv = false →
  collection s "cv" = l1 ++ d :: l2 →
  no_match (Q_id oid) l1 → matches (Q_id oid) d = true →
  update_cv id_str cv (Some s)
  = (Return (serialize (Cv.dump cv ∪ d)),
     Some (<["cv" := l1 ++ (Cv.dump cv ∪ d) :: l2]> s)).
Proof.
  intros Hid%to_object_id_parsed Hurl Hc Hl1 Hd. unfold update_cv. run.
  rewrite Hid, Hc. unfold model_dump, Cv_model.
  rewrite (update_one_at _ _ _ _ _ (eq_trans (Cv_dump_encodable cv)
             (f_equal negb Hurl)) Hl1 Hd). cbn [Nat.eqb].
  rewrite collection_insert, find_one_at; [done | done |].
  by rewrite matches_union.
Qed.

Lemma update_project_found (s : Database) (id_str : string) (oid : ObjectId)
    (pr : Project.t) (l1 l2 : list doc) (d : doc) :
  ObjectId_parse id_str = Some oid → Project.sets_url pr = false →
  collection s "project" = l1 ++ d :: l2 →
  no_match (Q_id oid) l1 → matches (Q_id oid) d = true →
  update_project id_str pr (Some s)
  = (Return (serialize (Project.dump pr ∪ d)),
     Some (<["project" := l1 ++ (Project.dump pr ∪ d) :: l2]> s)).
Proof.
  intros Hid%to_object_id_parsed Hurl Hc Hl1 Hd. unfold update_project. run.
  rewrite Hid, Hc. unfold model_dump, Project_model.
  rewrite (update_one_at _ _ _ _ _ (eq_trans (Project_dump_encodable pr)
             (f_equal negb Hurl)) Hl1 Hd). cbn [Nat.eqb].
  rewrite collection_insert, find_one_at; [done | done |].
  by rewrite matches_union.
Qed.

Lemma update_cv_refused (s : Database) (id_str : string) (oid : ObjectId)
    (cv : Cv.t) (d : doc) :
  ObjectId_parse id_str = Some oid → Cv.sets_url cv = true →
  find_one (Q_id oid) (collection s "cv") = Some d →
  update_cv id_str cv (Some s) = (Raise InvalidDocument, Some s).
Proof.
  intros Hid%to_object_id_parsed Hurl Hd. unfold update_cv. run.
  rewrite Hid. unfold model_dump, Cv_model.
  rewrite (update_one_refused _ _ _ d); [done | | done].
  by rewrite Cv_dump_encodable, Hurl.
Qed.

Lemma update_project_refused (s : Database) (id_str : string) (oid : ObjectId)
    (pr : Project.t) (d : doc) :
  ObjectId_parse id_str = Some oid → Project.sets_url pr = true →
  find_one (Q_id oid) (collection s "project") = Some d →
  update_project id_str pr (Some s) = (Raise InvalidDocument, Some s).
Proof.
  intros Hid%to_object_id_parsed Hurl Hd. unfold update_project. run.
  rewrite Hid. unfold model_dump, Project_model.
  rewrite (update_one_refused _ _ _ d); [done | | done].
  by rewrite Project_dump_encodable, Hurl.
Qed.

Lemma delete_cv_found (s : Database) (id_str : string) (oid : ObjectId)
    (l1 l2 : list doc) (d : doc) :
  ObjectId_parse id_str = Some oid → collection s "cv" = l1 ++ d :: l2 →
  no_match (Q_id oid) l1 → matches (Q_id oid) d = true →
  delete_cv id_str (Some s)
  = (Return (list_to_map [("status", VStr "deleted"); ("id", VStr id_str)]),
     Some (<["cv" := l1 ++ l2]> s)).
Proof.
  intros Hid%to_object_id_parsed Hc Hl1 Hd. unfold delete_cv. run.
  by rewrite Hid, Hc, (delete_one_at _ _ _ _ Hl1 Hd).
Qed.

Lemma delete_project_found (s : Database) (id_str : string) (oid : ObjectId)
    (l1 l2 : list doc) (d : doc) :
  ObjectId_parse id_str = Some oid → collection s "project" = l1 ++ d :: l2 →
  no_match (Q_id oid) l1 → matches (Q_id oid) d = true →
  delete_project id_str (Some s)
  = (Return (list_to_map [("status", VStr "deleted"); ("id", VStr id_str)]),
     Some (<["project" := l1 ++ l2]> s)).
Proof.
  intros Hid%to_object_id_parsed Hc Hl1 Hd. unfold delete_project. run.
  by rewrite Hid, Hc, (delete_one_at _ _ _ _ Hl1 Hd).
Qed.

Lemma update_cv_not_found (s : Database) (id_str : string) (oid : ObjectId)
    (cv : Cv.t) :
  ObjectId_parse id_str = Some oid → no_match (Q_id oid) (collection s "cv") →
  fst (update_cv id_str cv (Some s)) = Raise (HTTPException 404 "CV not found").
Proof.
  intros Hid%to_object_id_parsed Hno. unfold update_cv. run.
  by rewrite Hid, (update_one_no_match _ _ _ Hno).
Qed.

Lemma update_project_not_found (s : Database) (id_str : string) (oid : ObjectId)
    (pr : Project.t) :
  ObjectId_parse id_str = Some oid → no_match (Q_id oid) (collection s "project") →
  fst (update_project id_str pr (Some s))
  = Raise (HTTPException 404 "Project not found").
Proof.
  intros Hid%to_object_id_parsed Hno. unfold update_project. run.
  by rewrite Hid, (update_one_no_match _ _ _ Hno).
Qed.



Lemma update_cv_malformed (s : Database) (id_str : string) (cv : Cv.t) :
  ObjectId_parse id_str = None →
  fst (update_cv id_str cv (Some s)) = Raise (HTTPException 400 "Invalid ID format").
Proof. intros Hid. unfold update_cv, to_object_id. run. by rewrite Hid. Qed.


Lemma update_project_malformed (db : option Database) (id_str : string)
    (pr : Project.t) :
  ObjectId_parse id_str = None →
  fst (update_project id_str pr db) = Raise (HTTPException 400 "Invalid ID format").
Proof. intros Hid. unfold update_project, to_object_id. run. by rewrite Hid. Qed.


(** *** The serializer, continued *)

Lemma serialize_lookup_other (d : doc) (k : string) :
  k ≠ "_id" → k ≠ "id" → serialize d !! k = d !! k.
Proof.
  intros Hk1 Hk2. unfold serialize.
  destruct (d !! "_id") as [v|]; [|done]. destruct (truthy v); [|done].
  by rewrite lookup_insert_ne, lookup_delete_ne.
Qed.

(** X1: the serializer leaves every key other than [_id] and [id] as it
    is, present or absent; in particular it adds no key but [id]. *)
Theorem serialize_keeps_other_keys (d : doc) (k : string) :
  k ≠ "_id" → k ≠ "id" →
  serialize d !! k = d !! k ∧ (d !! k = None → serialize d !! k = None).
Proof.
  intros Hk1 Hk2. rewrite serialize_lookup_other by done. by split.
Qed.

(** X2: a serialized document never carries a truthy [_id]: the internal
    field is either gone or holds a falsy value. *)
Theorem serialize_never_truthy_id (d : doc) (v : value) :
  serialize d !! "_id" = Some v → truthy v = false.
Proof.
  unfold serialize. destruct (d !! "_id") as [w|] eqn:Hid; [|by rewrite Hid].
  destruct (truthy w) eqn:Hw.
  - by rewrite lookup_insert_ne, lookup_delete_eq.
  - rewrite Hid. by intros [= <-].
Qed.

(** X3: the [id] the serializer writes for a 12-byte identifier is a text
    [to_object_id] decodes back to that identifier, so an answered [id]
    addresses the document it came from. *)
Theorem serialize_id_decodes (d : doc) (oid : ObjectId) :
  d !! "_id" = Some (VOid oid) → oid_wf oid →
  ∃ text, serialize d !! "id" = Some (VStr text)
    ∧ to_object_id text = Return oid
    ∧ matches (Q_id oid) d = true.
Proof.
  intros Hid Hwf. exists (ObjectId_str oid). split; [|split].
  - rewrite (serialize_truthy d (VOid oid)) by done. apply lookup_insert_eq.
  - by apply to_object_id_parsed, ObjectId_parse_str.
  - by apply matches_id_true.
Qed.

(** *** Answers of the handlers *)

Lemma get_cv_available (s : Database) :
  get_cv (Some s)
  = (Return (serialize <$> head (cursor_sort "created_at" (-1) (collection s "cv"))),
     Some s).
Proof.
  unfold get_cv. run. rewrite find_all.
  by destruct (cursor_sort "created_at" (-1) (collection s "cv")).
Qed.



(** X6: a DELETE that finds its document removes the first stored
    document carrying the identifier and nothing else: the documents
    around it keep their order, the other collection is not written, and
    the answer echoes the identifier text exactly as it was sent. *)
Theorem delete_removes_first_match (s : Database) (id_str : string)
    (oid : ObjectId) (d : doc) :
  ObjectId_parse id_str = Some oid →
  (find_one (Q_id oid) (collection s "cv") = Some d →
     ∃ l1 l2, collection s "cv" = l1 ++ d :: l2 ∧ no_match (Q_id oid) l1
       ∧ delete_cv id_str (Some s)
         = (Return (list_to_map [("status", VStr "deleted"); ("id", VStr id_str)]),
            Some (<["cv" := l1 ++ l2]> s)))
  ∧ (find_one (Q_id oid) (collection s "project") = Some d →
     ∃ l1 l2, collection s "project" = l1 ++ d :: l2 ∧ no_match (Q_id oid) l1
       ∧ delete_project id_str (Some s)
         = (Return (list_to_map [("status", VStr "deleted"); ("id", VStr id_str)]),
            Some (<["project" := l1 ++ l2]> s))).
Proof.
  intros Hid. split; intros (l1 & l2 & Hc & Hl1 & Hm)%find_one_split;
    exists l1, l2; (split; [done|]); (split; [done|]).
  - by apply (delete_cv_found _ _ oid _ _ d).
  - by apply (delete_project_found _ _ oid _ _ d).
Qed.

(** X7: a PUT that finds its document and whose payload sets no URL field
    rewrites the first stored document carrying the identifier in place
    (the payload's dump laid over it) and nothing else: the collection
    keeps its length and order, every other document stays as it was,
    and the other collection is not written.  With a URL field set the
    driver refuses the payload and the store is left exactly as it
    was. *)
Theorem update_rewrites_first_match (s : Database) (id_str : string)
    (oid : ObjectId) (d : doc) (cv : Cv.t) (pr : Project.t) :
  ObjectId_parse id_str = Some oid →
  (find_one (Q_id oid) (collection s "cv") = Some d →
     (Cv.sets_url cv = false →
        ∃ l1 l2, collection s "cv" = l1 ++ d :: l2 ∧ no_match (Q_id oid) l1
          ∧ snd (update_cv id_str cv (Some s))
            = Some (<["cv" := l1 ++ (Cv.dump cv ∪ d) :: l2]> s))
     ∧ (Cv.sets_url cv = true → snd (update_cv id_str cv (Some s)) = Some s))
  ∧ (find_one (Q_id oid) (collection s "project") = Some d →
     (Project.sets_url pr = false →
        ∃ l1 l2, collection s "project" = l1 ++ d :: l2 ∧ no_match (Q_id oid) l1
          ∧ snd (update_project id_str pr (Some s))
            = Some (<["project" := l1 ++ (Project.dump pr ∪ d) :: l2]> s))
     ∧ (Project.sets_url pr = true →
        snd (update_project id_str pr (Some s)) = Some s)).
Proof.
  intros Hid. split; intros Hd; (split; intros Hurl).
  - apply find_one_split in Hd as (l1 & l2 & Hc & Hl1 & Hm).
    exists l1, l2. split; [done|]. split; [done|].
    by rewrite (update_cv_found _ _ oid _ l1 l2 d).
  - by rewrite (update_cv_refused _ _ oid _ d).
  - apply find_one_split in Hd as (l1 & l2 & Hc & Hl1 & Hm).
    exists l1, l2. split; [done|]. split; [done|].
    by rewrite (update_project_found _ _ oid _ l1 l2 d).
  - by rewrite (update_project_refused _ _ oid _ d).
Qed.

(** Reading a successful PUT backwards. *)
Lemma update_cv_success (s s1 : Database) (id_str : string) (cv : Cv.t) (r : doc) :
  update_cv id_str cv (Some s) = (Return r, Some s1) →
  ∃ oid l1 l2 d, ObjectId_parse id_str = Some oid ∧ Cv.sets_url cv = false
    ∧ collection s "cv" = l1 ++ d :: l2
    ∧ no_match (Q_id oid) l1 ∧ matches (Q_id oid) d = true
    ∧ r = serialize (Cv.dump cv ∪ d)
    ∧ s1 = <["cv" := l1 ++ (Cv.dump cv ∪ d) :: l2]> s.
Proof.
  intros Hup. destruct (ObjectId_parse id_str) as [oid|] eqn:Hid.
  - destruct (find_one (Q_id oid) (collection s "cv")) as [d|] eqn:Hd.
    + destruct (Cv.sets_url cv) eqn:Hurl.
      { by rewrite (update_cv_refused _ _ _ _ _ Hid Hurl Hd) in Hup. }
      apply find_one_split in Hd as (l1 & l2 & Hc & Hl1 & Hm).
      rewrite (update_cv_found _ _ _ _ _ _ _ Hid Hurl Hc Hl1 Hm) in Hup.
      injection Hup as <- <-. by exists oid, l1, l2, d.
    + apply find_one_None in Hd.
      pose proof (update_cv_not_found _ _ _ cv Hid Hd) as H404.
      by rewrite Hup in H404.
  - pose proof (update_cv_malformed s _ cv Hid) as H400. by rewrite Hup in H400.
Qed.

Lemma update_project_success (s s1 : Database) (id_str : string)
    (pr : Project.t) (r : doc) :
  update_project id_str pr (Some s) = (Return r, Some s1) →
  ∃ oid l1 l2 d, ObjectId_parse id_str = Some oid ∧ Project.sets_url pr = false
    ∧ collection s "project" = l1 ++ d :: l2
    ∧ no_match (Q_id oid) l1 ∧ matches (Q_id oid) d = true
    ∧ r = serialize (Project.dump pr ∪ d)
    ∧ s1 = <["project" := l1 ++ (Project.dump pr ∪ d) :: l2]> s.
Proof.
  intros Hup. destruct (ObjectId_parse id_str) as [oid|] eqn:Hid.
  - destruct (find_one (Q_id oid) (collection s "project")) as [d|] eqn:Hd.
    + destruct (Project.sets_url pr) eqn:Hurl.
      { by rewrite (update_project_refused _ _ _ _ _ Hid Hurl Hd) in Hup. }
      apply find_one_split in Hd as (l1 & l2 & Hc & Hl1 & Hm).
      rewrite (update_project_found _ _ _ _ _ _ _ Hid Hurl Hc Hl1 Hm) in Hup.
      injection Hup as <- <-. by exists oid, l1, l2, d.
    + apply find_one_None in Hd.
      pose proof (update_project_not_found _ _ _ pr Hid Hd) as H404.
      by rewrite Hup in H404.
  - pose proof (update_project_malformed (Some s) _ pr Hid) as H400.
    by rewrite Hup in H400.
Qed.

(** X8: a PUT is idempotent: sending the request that succeeded once more
    gives the same answer and leaves the store as the first one left
    it. *)
Theorem update_twice (s s1 : Database) (id_str : string) (cv : Cv.t)
    (pr : Project.t) (r : doc) :
  (update_cv id_str cv (Some s) = (Return r, Some s1) →
     update_cv id_str cv (Some s1) = (Return r, Some s1))
  ∧ (update_project id_str pr (Some s) = (Return r, Some s1) →
     update_project id_str pr (Some s1) = (Return r, Some s1)).
Proof.
  split.
  - intros (oid & l1 & l2 & d & Hid & Hurl & Hc & Hl1 & Hm & -> & ->)%update_cv_success.
    rewrite (update_cv_found _ _ oid cv l1 l2 (Cv.dump cv ∪ d)); try done.
    + by rewrite union_union, insert_insert_eq.
    + by rewrite collection_insert.
    + by rewrite matches_union.
  - intros (oid & l1 & l2 & d & Hid & Hurl & Hc & Hl1 & Hm & -> & ->)%update_project_success.
    rewrite (update_project_found _ _ oid pr l1 l2 (Project.dump pr ∪ d)); try done.
    + by rewrite union_union, insert_insert_eq.
    + by rewrite collection_insert.
    + by rewrite matches_union.
Qed.

(** X9: the answer of a successful PUT has no [_id]; its [id] is the
    lower-case rendering of the decoded identifier, whatever the case of
    the text that was sent; every other key is as in the stored
    document. *)
Theorem update_answer_id (s s1 : Database) (id_str : string) (cv : Cv.t)
    (pr : Project.t) (r : doc) :
  update_cv id_str cv (Some s) = (Return r, Some s1)
  ∨ update_project id_str pr (Some s) = (Return r, Some s1) →
  ∃ oid stored, ObjectId_parse id_str = Some oid
    ∧ (find_one (Q_id oid) (collection s1 "cv") = Some stored
       ∨ find_one (Q_id oid) (collection s1 "project") = Some stored)
    ∧ r !! "_id" = None
    ∧ r !! "id" = Some (VStr (ObjectId_str oid))
    ∧ ∀ k, k ≠ "_id" → k ≠ "id" → r !! k = stored !! k.
Proof.
  intros [Hup|Hup].
  - apply update_cv_success in Hup
      as (oid & l1 & l2 & d & Hid & Hurl & Hc & Hl1 & Hm & -> & ->).
    assert (matches (Q_id oid) (Cv.dump cv ∪ d) = true) as Hm'
      by by rewrite matches_union.
    pose proof Hm' as Hdid%matches_id_true.
    exists oid, (Cv.dump cv ∪ d). split; [done|]. split; [|split; [|split]].
    + left. by rewrite collection_insert, find_one_at.
    + by apply (serialize_lookup_id _ (VOid oid)).
    + rewrite (serialize_truthy _ (VOid oid)) by done. apply lookup_insert_eq.
    + intros k Hk1 Hk2. by apply serialize_lookup_other.
  - apply update_project_success in Hup
      as (oid & l1 & l2 & d & Hid & Hurl & Hc & Hl1 & Hm & -> & ->).
    assert (matches (Q_id oid) (Project.dump pr ∪ d) = true) as Hm'
      by by rewrite matches_union.
    pose proof Hm' as Hdid%matches_id_true.
    exists oid, (Project.dump pr ∪ d). split; [done|]. split; [|split; [|split]].
    + right. by rewrite collection_insert, find_one_at.
    + by apply (serialize_lookup_id _ (VOid oid)).
    + rewrite (serialize_truthy _ (VOid oid)) by done. apply lookup_insert_eq.
    + intros k Hk1 Hk2. by apply serialize_lookup_other.
Qed.

(** *** Sorting and rewriting *)

Lemma insert_sorted_Forall2 (R : doc → doc → Prop) (key : string) (direction : Z)
    (x y : doc) (l l' : list doc) :
  (∀ a b, R a b → sort_key key a = sort_key key b) →
  R x y → Forall2 R l l' →
  Forall2 R (insert_sorted key direction x l) (insert_sorted key direction y l').
Proof.
  intros HR Hxy Hl. induction Hl as [|a b l l' Hab Hl IH]; simpl.
  - by repeat constructor.
  - unfold precedes. rewrite (HR _ _ Hxy), (HR _ _ Hab).
    destruct (if direction <? 0 then _ else _); by repeat constructor.
Qed.

Lemma cursor_sort_Forall2 (R : doc → doc → Prop) (key : string) (direction : Z)
    (c c' : list doc) :
  (∀ a b, R a b → sort_key key a = sort_key key b) →
  Forall2 R c c' →
  Forall2 R (cursor_sort key direction c) (cursor_sort key direction c').
Proof.
  intros HR Hc. induction Hc as [|a b c c' Hab Hc IH]; [constructor|].
  cbn [cursor_sort foldr]. by apply insert_sorted_Forall2.
Qed.

Lemma cursor_sort_head_elem (key : string) (direction : Z) (c : list doc) (d : doc) :
  head (cursor_sort key direction c) = Some d → d ∈ c.
Proof.
  revert d. induction c as [|x c IH]; intros d; [done|].
  cbn [cursor_sort foldr]. fold (cursor_sort key direction c).
  destruct (cursor_sort key direction c) as [|y l]; simpl.
  - intros [= <-]. left.
  - destruct (precedes key direction x y); simpl; intros [= <-]; [left|].
    right. by apply IH.
Qed.

Lemma created_at_not_in_Cv : "created_at" ∉ Cv.fields.
Proof.
  unfold Cv.fields. intros H.
  repeat (apply elem_of_cons in H as [H|H]; [discriminate H|]).
  by apply elem_of_nil in H.
Qed.

(** X10: a PUT on a CV does not change which CV is the most recent one:
    [created_at] is outside the schema, so GET /api/cv answers the same
    stored document after the PUT as before it, with its schema fields
    rewritten when it is the one the PUT addressed. *)
Theorem get_cv_after_update (s s1 : Database) (id_str : string) (cv : Cv.t)
    (r : doc) :
  update_cv id_str cv (Some s) = (Return r, Some s1) →
  ∃ d0, d0 ∈ collection s "cv"
    ∧ fst (get_cv (Some s)) = Return (Some (serialize d0))
    ∧ (fst (get_cv (Some s1)) = Return (Some (serialize d0))
       ∨ fst (get_cv (Some s1)) = Return (Some (serialize (Cv.dump cv ∪ d0)))).
Proof.
  intros (oid & l1 & l2 & d & Hid & Hurl & Hc & Hl1 & Hm & -> & ->)%update_cv_success.
  rewrite !get_cv_available, collection_insert, Hc. cbn [fst].
  set (R := λ x y : doc,
         sort_key "created_at" x = sort_key "created_at" y
         ∧ (y = x ∨ y = Cv.dump cv ∪ x)).
  assert (Forall2 R (l1 ++ d :: l2) (l1 ++ (Cv.dump cv ∪ d) :: l2)) as HR.
  { apply Forall2_app; [|constructor].
    - apply Forall_Forall2_diag, Forall_forall. intros x _. split; auto.
    - split; [|by right]. unfold sort_key.
      by rewrite lookup_union_r by apply Cv_dump_other, created_at_not_in_Cv.
    - apply Forall_Forall2_diag, Forall_forall. intros x _. split; auto. }
  apply (cursor_sort_Forall2 R "created_at" (-1)) in HR; [|by intros a b [? _]].
  destruct (cursor_sort_nonempty "created_at" (-1) (l1 ++ d :: l2)) as [d0 Hd0];
    [by destruct l1|].
  exists d0. split; [by eapply cursor_sort_head_elem|].
  destruct (cursor_sort "created_at" (-1) (l1 ++ d :: l2)) as [|x l]; [done|].
  simpl in Hd0. injection Hd0 as ->.
  inversion HR as [|? y ? l' [_ Hy] _]; subst. simpl. split; [done|].
  destruct Hy as [->| ->]; auto.
Qed.

(** *** Deleting the only match *)




(** *** Validation, continued *)

Ltac at_key :=
  unfold required, defaulted;
  rewrite ?lookup_insert_eq, ?lookup_delete_eq;
  rewrite ?lookup_insert_ne, ?lookup_delete_ne by done.

(** X13: for a field declared [Optional[...] = None], sending null is the
    same as leaving the field out. *)
Theorem optional_null_is_absent (o : gmap string json) (k : string) :
  (k ∈ ["summary"; "location"; "email"; "phone"; "website"; "avatar_url"] →
     validate_Cv (JObj (<[k := JNull]> o)) = validate_Cv (JObj (delete k o)))
  ∧ (k ∈ ["description"; "url"; "repo_url"; "image_url"] →
     validate_Project (JObj (<[k := JNull]> o))
     = validate_Project (JObj (delete k o))).
Proof.
  split; intros Hk.
  - repeat (apply elem_of_cons in Hk as [->|Hk];
            [unfold validate_Cv; at_key; reflexivity|]).
    by apply elem_of_nil in Hk.
  - repeat (apply elem_of_cons in Hk as [->|Hk];
            [unfold validate_Project; at_key; reflexivity|]).
    by apply elem_of_nil in Hk.
Qed.

(** X14: a list field has the empty list as its default but is not
    optional: null for [skills], [experience], [education] or
    [tech_stack] is rejected, although leaving the field out is
    accepted. *)
Theorem list_field_null_rejected (o : gmap string json) (k : string) :
  (k ∈ ["skills"; "experience"; "education"] →
     validate_Cv (JObj (<[k := JNull]> o)) = None)
  ∧ validate_Project (JObj (<["tech_stack" := JNull]> o)) = None.
Proof.
  split.
  - intros Hk.
    repeat (apply elem_of_cons in Hk as [->|Hk];
            [unfold validate_Cv, defaulted; rewrite lookup_insert_eq;
             cbn [pyd_list]; chain_fails|]).
    by apply elem_of_nil in Hk.
  - unfold validate_Project, defaulted. rewrite lookup_insert_eq.
    cbn [pyd_list]. chain_fails.
Qed.

Lemma mapM_pyd_str (l : list json) (texts : list string) :
  mapM pyd_str l = Some texts → JStr <$> texts = l.
Proof.
  intros H%mapM_Some_1. induction H as [|x y l texts Hxy _ IH]; [done|].
  rewrite fmap_cons, IH. by destruct x; simplify_eq/=.
Qed.

Ltac chain_succeeds H :=
  repeat match type of H with
         | (?m ≫= _) = Some _ =>
             let E := fresh "E" in
             destruct m eqn:E; cbn [mbind option_bind] in H; [|discriminate H]
         end.

(** X15: the validated [skills] and [tech_stack] are the texts of the
    array that was sent, in the same order and with repetitions kept, and
    are empty when the field was left out. *)
Theorem validated_lists_as_sent (o : gmap string json) (cv : Cv.t) (pr : Project.t) :
  (validate_Cv (JObj o) = Some cv →
     match o !! "skills" with
     | Some sent => sent = JArr (JStr <$> Cv.skills cv)
     | None => Cv.skills cv = []
     end)
  ∧ (validate_Project (JObj o) = Some pr →
     match o !! "tech_stack" with
     | Some sent => sent = JArr (JStr <$> Project.tech_stack pr)
     | None => Project.tech_stack pr = []
     end).
Proof.
  split; intros H.
  - unfold validate_Cv in H. chain_succeeds H. injection H as <-. cbn [Cv.skills].
    match goal with E : defaulted (pyd_list pyd_str) _ _ "skills" = _ |- _ =>
      unfold defaulted in E; destruct (o !! "skills") as [[]|]; simplify_eq/=;
      try done; f_equal; symmetry; by apply mapM_pyd_str end.
  - unfold validate_Project in H. chain_succeeds H. injection H as <-.
    cbn [Project.tech_stack].
    match goal with E : defaulted (pyd_list pyd_str) _ _ "tech_stack" = _ |- _ =>
      unfold defaulted in E; destruct (o !! "tech_stack") as [[]|]; simplify_eq/=;
      try done; f_equal; symmetry; by apply mapM_pyd_str end.
Qed.

(** X16: a validated [User] has an age, when it has one, between 0 and
    120; [is_active] is true when the field was left out; and [email],
    declared as plain text, is kept exactly as sent. *)
Theorem validate_User_bounds (j : json) (u : User.t) :
  validate_User j = Some u →
  (∀ n, User.age u = Some n → 0 ≤ n ≤ 120)
  ∧ (field j "is_active" = None → User.is_active u = true)
  ∧ field j "email" = Some (JStr (User.email u)).
Proof.
  destruct j as [| | | | | |o]; try done. unfold validate_User. intros H.
  chain_succeeds H. injection H as <-. cbn [User.age User.is_active User.email field].
  split; [|split].
  - intros n ->.
    match goal with E : defaulted _ _ _ "age" = _ |- _ =>
      unfold defaulted, pyd_optional, pyd_int_range in E;
      destruct (o !! "age") as [[]|]; simplify_eq/=;
      repeat match goal with
             | E' : context [int_validator ?x] |- _ =>
                 destruct (int_validator x); simplify_eq/=
             | E' : context [if ?b then _ else _] |- _ =>
                 destruct b eqn:?; simplify_eq/=
             end end;
    lia.
  - intros Hnone.
    match goal with E : defaulted bool_validator _ _ "is_active" = _ |- _ =>
      unfold defaulted in E; rewrite Hnone in E; by injection E as <- end.
  - match goal with E : required pyd_str _ "email" = _ |- _ =>
      unfold required in E; destruct (o !! "email") as [[]|]; by simplify_eq/= end.
Qed.

(** *** The connectivity diagnostic *)

(** X17: whatever the state of the store, the diagnostic's
    [database_url] and [database_name] only say whether the environment
    variable is set to a non-empty text; what the connected branch wrote
    there is overwritten. *)
Theorem test_database_reports_env (env : gmap string string)
    (db : option Database) (k : string) (var : string) :
  (k, var) ∈ [("database_url", "DATABASE_URL"); ("database_name", "DATABASE_NAME")] →
  (env !! var = None ∨ env !! var = Some "" →
     test_database env db !! k = Some (VStr "❌ Not Set"))
  ∧ (∀ v, env !! var = Some v → v ≠ "" →
     test_database env db !! k = Some (VStr "✅ Set")).
Proof.
  intros Hk. apply elem_of_cons in Hk as [[= -> ->]|Hk];
    [|apply elem_of_cons in Hk as [[= -> ->]|Hk]; [|by apply elem_of_nil in Hk]].
  - unfold test_database, getenv. rewrite lookup_insert_ne, lookup_insert_eq by done.
    split.
    + by intros [-> | ->].
    + intros v -> Hv. by destruct v.
  - unfold test_database, getenv. rewrite lookup_insert_eq.
    split.
    + by intros [-> | ->].
    + intros v -> Hv. by destruct v.
Qed.

Ltac look_up :=
  repeat first [rewrite lookup_insert_eq | rewrite lookup_insert_ne by done];
  try reflexivity.

(** X18: the diagnostic lists at most ten collection names, the first
    ten the driver returned; it lists none when there is no store or the
    listing failed; and it reports [Connected] exactly when the handle is
    present, also when the listing failed. *)
Theorem test_database_collections (env : gmap string string) (db : option Database) :
  ∃ names, test_database env db !! "collections" = Some (VList (VStr <$> names))
    ∧ (length names ≤ 10)%nat
    ∧ names = match db with
              | Some s =>
                  match list_collection_names s with
                  | inl all => take 10 all
                  | inr _ => []
                  end
              | None => []
              end
    ∧ test_database env db !! "connection_status"
      = Some (VStr (if db is Some _ then "Connected" else "Not Connected")).
Proof.
  unfold test_database.
  destruct db as [s|]; [destruct (list_collection_names s) as [all|e]|].
  - exists (take 10 all). rewrite length_take.
    split; [look_up|]. split; [lia|]. split; [done|]. look_up.
  - exists []. split; [look_up|]. split; [simpl; lia|]. split; [done|]. look_up.
  - exists []. split; [look_up|]. split; [simpl; lia|]. split; [done|]. look_up.
Qed.

End Api.

(* ===================================================================== *)
(** ** The properties on the worked requests *)
(* ===================================================================== *)

Lemma by_date_total (a b : value) :
  Sample.by_date a b = true ∨ Sample.by_date b a = true.
Proof. destruct a, b; simpl; auto. rewrite !Z.leb_le. lia. Qed.

Lemma by_date_trans (a b c : value) :
  Sample.by_date a b = true → Sample.by_date b c = true → Sample.by_date a c = true.
Proof. destruct a, b, c; simpl; auto; try done. rewrite !Z.leb_le. lia. Qed.

Example ObjectId_str_sample : ObjectId_str Sample.oid = Sample.id_text.
Proof. reflexivity. Qed.

Example ObjectId_parse_upper_case :
  ObjectId_parse "0000000000000000000000FF" = Some Sample.oid.
Proof. reflexivity. Qed.

Example ObjectId_parse_spaced :
  ObjectId_parse Sample.spaced_id_text
  = Some [x12; x34; x56; x78; x9a; xbc; xde; xf0].
Proof. reflexivity. Qed.

Example ObjectId_parse_split_pair : ObjectId_parse "1 2345678901234567890123" = None.
Proof. reflexivity. Qed.

Example ObjectId_parse_short : ObjectId_parse "ff" = None.
Proof. reflexivity. Qed.

Example ObjectId_parse_not_hex : ObjectId_parse "00000000000000000000000g" = None.
Proof. reflexivity. Qed.

Example get_cv_sample :
  fst (get_cv Sample.str Sample.by_date (Some Sample.store))
  = Return (Some (<["id" := VStr Sample.id_text]> (delete "_id" Sample.stored_cv))).
Proof. reflexivity. Qed.

Example validate_Project_sample :
  validate_Project Sample.any_text Sample.json_bool
    (JObj {[ "title" := JStr "X"; "rating" := JInt 5 ]})
  = Some (Project.mk "X" None [] None None None false).
Proof. reflexivity. Qed.

Lemma not_an_id_malformed : ¬ well_formed_id "not-an-id".
Proof. intros [Hlen _]. discriminate Hlen. Qed.


Lemma C1_witness :
  ObjectId_parse Sample.id_text = Some Sample.oid
  ∧ find_one (Q_id Sample.oid) (collection Sample.store "cv") = Some Sample.stored_cv
  ∧ Cv.sets_url Sample.cv_payload = false
  ∧ ∃ d' s',
      update_cv Sample.str Sample.id_text Sample.cv_payload (Some Sample.store)
        = (Return (serialize Sample.str d'), Some s')
      ∧ find_one (Q_id Sample.oid) (collection s' "cv") = Some d'
      ∧ (∀ k, k ∈ Cv.fields → d' !! k = Cv.dump Sample.cv_payload !! k)
      ∧ (∀ k, k ∉ Cv.fields → d' !! k = Sample.stored_cv !! k).
Proof.
  split; [reflexivity|]. split; [reflexivity|]. split; [reflexivity|].
  destruct (C1_update_sets_schema_fields Sample.str Sample.store Sample.id_text
              Sample.oid Sample.stored_cv Sample.cv_payload Sample.project_payload
              eq_refl) as [Hcv _].
  apply Hcv; reflexivity.
Defined.

Lemma C1_counterexample :
  let answer :=
    PUT_cv Sample.str Sample.any_text Sample.any_text Sample.id_text Sample.cv_body
      (Some Sample.store) in
  field Sample.cv_body "summary" = None
  ∧ find_one (Q_id Sample.oid) (collection Sample.store "cv") ≫= (.!! "summary")
    = Some (VStr "old")
  ∧ status_of (fst answer) = 200
  ∧ (snd answer ≫= λ s', find_one (Q_id Sample.oid) (collection s' "cv"))
      ≫= (.!! "summary")
    = Some VNone.
Proof. repeat split. Qed.

Lemma C2_witness :
  foreign_id "00000000000000000000000g"
  ∧ update_project Sample.str "00000000000000000000000g" Sample.project_payload
      (Some Sample.store)
    = (Raise (HTTPException 400 "Invalid ID format"), Some Sample.store)
  ∧ delete_project "00000000000000000000000g" (Some Sample.store)
    = (Raise (HTTPException 400 "Invalid ID format"), Some Sample.store)
  ∧ (is_Some (Some Sample.store) →
     update_cv Sample.str "00000000000000000000000g" Sample.cv_payload
       (Some Sample.store)
     = (Raise (HTTPException 400 "Invalid ID format"), Some Sample.store)
     ∧ delete_cv "00000000000000000000000g" (Some Sample.store)
       = (Raise (HTTPException 400 "Invalid ID format"), Some Sample.store)).
Proof.
  assert (foreign_id "00000000000000000000000g") as Hf.
  { right. exists "g"%char. split; [|by split]. simpl. do 23 right. by left. }
  split; [exact Hf|].
  exact (C2_malformed_id_400 Sample.str (Some Sample.store)
           "00000000000000000000000g" Sample.cv_payload Sample.project_payload Hf).
Defined.

Lemma C2_counterexample :
  (¬ well_formed_id "not-an-id"
   ∧ status_of (fst (delete_cv "not-an-id" None)) = 500
   ∧ status_of (fst (update_cv Sample.str "not-an-id" Sample.cv_payload None)) = 500)
  ∧ (¬ well_formed_id Sample.spaced_id_text
     ∧ status_of (fst (delete_project Sample.spaced_id_text (Some Sample.store))) = 404
     ∧ status_of (fst (update_project Sample.str Sample.spaced_id_text
                         Sample.project_payload (Some Sample.store))) = 404
     ∧ status_of (fst (delete_cv Sample.spaced_id_text (Some Sample.store))) = 404
     ∧ status_of (fst (update_cv Sample.str Sample.spaced_id_text Sample.cv_payload
                         (Some Sample.store))) = 404).
Proof.
  split; [split; [exact not_an_id_malformed | repeat split]|].
  split; [intros [_ Hhex]; discriminate Hhex | repeat split].
Qed.


Lemma C4_witness :
  Sample.stored_project !! "_id" = Some (VOid Sample.oid)
  ∧ serialize Sample.str (serialize Sample.str Sample.stored_project)
    = serialize Sample.str Sample.stored_project
  ∧ (Cv.dump Sample.cv_payload : doc) !! "_id" = None
  ∧ serialize Sample.str (Cv.dump Sample.cv_payload) = Cv.dump Sample.cv_payload.
Proof.
  destruct (C4_serialize_idempotent Sample.str Sample.stored_project) as [Hidem _].
  destruct (C4_serialize_idempotent Sample.str (Cv.dump Sample.cv_payload)) as [_ Hid].
  split; [reflexivity|]. split; [exact Hidem|]. split; [reflexivity|].
  apply Hid. reflexivity.
Defined.

Lemma C6_witness :
  collection Sample.store "cv" ≠ []
  ∧ ∃ d, d ∈ collection Sample.store "cv"
      ∧ get_cv Sample.str Sample.by_date (Some Sample.store)
        = (Return (Some (serialize Sample.str d)), Some Sample.store)
      ∧ ∀ d', d' ∈ collection Sample.store "cv" →
          Sample.by_date (sort_key "created_at" d') (sort_key "created_at" d) = true.
Proof.
  split; [discriminate|].
  destruct (C6_get_cv_most_recent Sample.str Sample.by_date by_date_total
              by_date_trans Sample.store) as [_ Hmost].
  apply Hmost. discriminate.
Defined.

Lemma C7_witness :
  violates Cv_required (Cv_types Sample.any_text Sample.any_text)
    (JObj {[ "name" := JStr "Ann"; "title" := JNull ]})
  ∧ ∀ db,
      PUT_cv Sample.str Sample.any_text Sample.any_text Sample.id_text
        (JObj {[ "name" := JStr "Ann"; "title" := JNull ]}) db
      = (Raise RequestValidationError, db).
Proof.
  assert (violates Cv_required (Cv_types Sample.any_text Sample.any_text)
            (JObj {[ "name" := JStr "Ann"; "title" := JNull ]})) as Hv.
  { left. exists "title". split; [by right; left | by right]. }
  split; [exact Hv|]. intros db.
  destruct (C7_validation_422 Sample.any_text Sample.any_text Sample.json_bool
              (JObj {[ "name" := JStr "Ann"; "title" := JNull ]}))
    as (_ & _ & Hreject & _).
  apply (Hreject doc (update_cv Sample.str Sample.id_text) db Hv).
Defined.

Lemma C8_witness :
  oid_wf Sample.new_oid
  ∧ (∀ d, d ∈ collection Sample.store "project" → d !! "_id" ≠ Some (VOid Sample.new_oid))
  ∧ ∃ (body : doc) (id : string) (s1 s2 : Database),
      POST_projects Sample.str Sample.any_text Sample.json_bool Sample.new_oid
        (JObj {[ "title" := JStr "X" ]}) (Some Sample.store)
        = (Return body, Some s1)
      ∧ body !! "title" = Some (VStr "X")
      ∧ body !! "tech_stack" = Some (VList [])
      ∧ body !! "featured" = Some (VBool false)
      ∧ body !! "id" = Some (VStr id)
      ∧ well_formed_id id
      ∧ delete_project id (Some s1)
        = (Return (list_to_map [("status", VStr "deleted"); ("id", VStr id)]), Some s2)
      ∧ delete_project id (Some s2)
        = (Raise (HTTPException 404 "Project not found"), Some s2).
Proof.
  assert (oid_wf Sample.new_oid) as Hwf by reflexivity.
  assert (∀ d, d ∈ collection Sample.store "project" →
               d !! "_id" ≠ Some (VOid Sample.new_oid)) as Hfresh.
  { intros d Hd. change (collection Sample.store "project")
      with [Sample.stored_project] in Hd.
    apply list_elem_of_singleton in Hd as ->. discriminate. }
  split; [exact Hwf|]. split; [exact Hfresh|].
  exact (C8_project_scenario Sample.str Sample.any_text Sample.json_bool
           Sample.store Sample.new_oid Hwf Hfresh).
Defined.

Lemma C9_witness :
  0 ≤ 2
  ∧ (∀ db docs, fst (list_projects Sample.str 2 db) = Return docs →
       Z.of_nat (length docs) ≤ 2)
  ∧ (∃ docs, list_projects Sample.str 2 (Some Sample.store)
             = (Return docs, Some Sample.store))
  ∧ (∀ db, GET_projects Sample.str None db = list_projects Sample.str 50 db).
Proof.
  assert (0 ≤ 2) as Hn by lia.
  destruct (C9_list_projects_limit Sample.str 2 Hn) as (Hmax & Hans & Hdef & _).
  split; [exact Hn|]. split; [exact Hmax|]. split; [apply Hans | exact Hdef].
Defined.

Lemma C10_witness :
  let d : doc := list_to_map [ ("_id", VInt 0); ("title", VStr "X") ] in
  d !! "_id" = Some (VInt 0)
  ∧ VInt 0 ∈ [VNone; VInt 0; VBool false; VStr ""]
  ∧ serialize Sample.str d = d
  ∧ serialize Sample.str d !! "_id" = Some (VInt 0)
  ∧ serialize Sample.str d !! "id" = d !! "id".
Proof.
  intros d.
  assert (VInt 0 ∈ [VNone; VInt 0; VBool false; VStr ""]) as Hv
    by (apply list_elem_of_further, list_elem_of_here).
  destruct (C10_serialize_falsy_id Sample.str d (VInt 0) eq_refl) as [Hfalsy _].
  split; [reflexivity|]. split; [exact Hv|]. apply Hfalsy, Hv.
Defined.

(* ===================================================================== *)
(** ** The further properties on the worked requests *)
(* ===================================================================== *)

Lemma sample_cv_collection :
  collection Sample.store "cv" = [Sample.old_cv; Sample.stored_cv].
Proof. reflexivity. Qed.

Lemma sample_put :
  update_cv Sample.str Sample.id_text Sample.cv_payload (Some Sample.store)
  = (Return (serialize Sample.str Sample.updated_cv), Some Sample.store_after_put).
Proof. reflexivity. Qed.

Lemma sample_put_upper_case :
  update_cv Sample.str Sample.upper_id_text Sample.cv_payload (Some Sample.store)
  = (Return (serialize Sample.str Sample.updated_cv), Some Sample.store_after_put).
Proof. reflexivity. Qed.

Lemma serialize_keeps_other_keys_witness :
  "title" ≠ "_id" ∧ "title" ≠ "id"
  ∧ serialize Sample.str Sample.stored_cv !! "title" = Sample.stored_cv !! "title".
Proof.
  split; [discriminate|]. split; [discriminate|].
  destruct (serialize_keeps_other_keys Sample.str Sample.stored_cv "title") as [Hk _];
    [discriminate | discriminate | exact Hk].
Defined.

Lemma serialize_never_truthy_id_witness :
  let d : doc := list_to_map [ ("_id", VStr ""); ("title", VStr "X") ] in
  serialize Sample.str d !! "_id" = Some (VStr "") ∧ truthy (VStr "") = false.
Proof.
  intros d. split; [reflexivity|].
  apply (serialize_never_truthy_id Sample.str d (VStr "")). reflexivity.
Defined.

Lemma serialize_id_decodes_witness :
  Sample.stored_cv !! "_id" = Some (VOid Sample.oid) ∧ oid_wf Sample.oid
  ∧ ∃ text, serialize Sample.str Sample.stored_cv !! "id" = Some (VStr text)
      ∧ to_object_id text = Return Sample.oid
      ∧ matches (Q_id Sample.oid) Sample.stored_cv = true.
Proof.
  split; [reflexivity|]. split; [reflexivity|].
  apply (serialize_id_decodes Sample.str Sample.stored_cv Sample.oid); reflexivity.
Defined.



Lemma delete_removes_first_match_witness :
  ObjectId_parse Sample.upper_id_text = Some Sample.oid
  ∧ find_one (Q_id Sample.oid) (collection Sample.store "cv") = Some Sample.stored_cv
  ∧ ∃ l1 l2, collection Sample.store "cv" = l1 ++ Sample.stored_cv :: l2
      ∧ no_match (Q_id Sample.oid) l1
      ∧ delete_cv Sample.upper_id_text (Some Sample.store)
        = (Return (list_to_map [("status", VStr "deleted");
                                ("id", VStr Sample.upper_id_text)]),
           Some (<["cv" := l1 ++ l2]> Sample.store)).
Proof.
  split; [reflexivity|]. split; [reflexivity|].
  destruct (delete_removes_first_match Sample.store Sample.upper_id_text Sample.oid
              Sample.stored_cv eq_refl) as [Hcv _].
  apply Hcv. reflexivity.
Defined.

Lemma update_rewrites_first_match_witness :
  ObjectId_parse Sample.id_text = Some Sample.oid
  ∧ find_one (Q_id Sample.oid) (collection Sample.store "cv") = Some Sample.stored_cv
  ∧ Cv.sets_url Sample.cv_payload = false
  ∧ (∃ l1 l2, collection Sample.store "cv" = l1 ++ Sample.stored_cv :: l2
      ∧ no_match (Q_id Sample.oid) l1
      ∧ snd (update_cv Sample.str Sample.id_text Sample.cv_payload (Some Sample.store))
        = Some (<["cv" := l1 ++ (Cv.dump Sample.cv_payload ∪ Sample.stored_cv) :: l2]>
                  Sample.store))
  ∧ Cv.sets_url Sample.linked_cv = true
  ∧ snd (update_cv Sample.str Sample.id_text Sample.linked_cv (Some Sample.store))
    = Some Sample.store.
Proof.
  split; [reflexivity|]. split; [reflexivity|]. split; [reflexivity|].
  destruct (update_rewrites_first_match Sample.str Sample.store Sample.id_text
              Sample.oid Sample.stored_cv Sample.cv_payload Sample.project_payload
              eq_refl) as [Hcv _].
  destruct (Hcv eq_refl) as [Hplain _].
  split; [exact (Hplain eq_refl)|]. split; [reflexivity|].
  destruct (update_rewrites_first_match Sample.str Sample.store Sample.id_text
              Sample.oid Sample.stored_cv Sample.linked_cv Sample.project_payload
              eq_refl) as [Hlinked _].
  destruct (Hlinked eq_refl) as [_ Hrefused].
  exact (Hrefused eq_refl).
Defined.

Lemma update_twice_witness :
  update_cv Sample.str Sample.id_text Sample.cv_payload (Some Sample.store)
  = (Return (serialize Sample.str Sample.updated_cv), Some Sample.store_after_put)
  ∧ update_cv Sample.str Sample.id_text Sample.cv_payload (Some Sample.store_after_put)
    = (Return (serialize Sample.str Sample.updated_cv), Some Sample.store_after_put).
Proof.
  split; [exact sample_put|].
  destruct (update_twice Sample.str Sample.store Sample.store_after_put Sample.id_text
              Sample.cv_payload Sample.project_payload
              (serialize Sample.str Sample.updated_cv)) as [Hcv _].
  apply Hcv, sample_put.
Defined.

Lemma update_answer_id_witness :
  update_cv Sample.str Sample.upper_id_text Sample.cv_payload (Some Sample.store)
  = (Return (serialize Sample.str Sample.updated_cv), Some Sample.store_after_put)
  ∧ ∃ oid stored, ObjectId_parse Sample.upper_id_text = Some oid
      ∧ (find_one (Q_id oid) (collection Sample.store_after_put "cv") = Some stored
         ∨ find_one (Q_id oid) (collection Sample.store_after_put "project")
           = Some stored)
      ∧ serialize Sample.str Sample.updated_cv !! "_id" = None
      ∧ serialize Sample.str Sample.updated_cv !! "id" = Some (VStr (ObjectId_str oid))
      ∧ ∀ k, k ≠ "_id" → k ≠ "id" →
          serialize Sample.str Sample.updated_cv !! k = stored !! k.
Proof.
  split; [exact sample_put_upper_case|].
  apply (update_answer_id Sample.str Sample.store Sample.store_after_put
           Sample.upper_id_text Sample.cv_payload Sample.project_payload).
  left. exact sample_put_upper_case.
Defined.

Lemma get_cv_after_update_witness :
  update_cv Sample.str Sample.id_text Sample.cv_payload (Some Sample.store)
  = (Return (serialize Sample.str Sample.updated_cv), Some Sample.store_after_put)
  ∧ ∃ d0, d0 ∈ collection Sample.store "cv"
      ∧ fst (get_cv Sample.str Sample.by_date (Some Sample.store))
        = Return (Some (serialize Sample.str d0))
      ∧ (fst (get_cv Sample.str Sample.by_date (Some Sample.store_after_put))
         = Return (Some (serialize Sample.str d0))
         ∨ fst (get_cv Sample.str Sample.by_date (Some Sample.store_after_put))
           = Return (Some (serialize Sample.str (Cv.dump Sample.cv_payload ∪ d0)))).
Proof.
  split; [exact sample_put|].
  exact (get_cv_after_update Sample.str Sample.by_date Sample.store
           Sample.store_after_put Sample.id_text Sample.cv_payload _ sample_put).
Defined.


Lemma optional_null_is_absent_witness :
  "summary" ∈ ["summary"; "location"; "email"; "phone"; "website"; "avatar_url"]
  ∧ validate_Cv Sample.any_text Sample.any_text
      (JObj (<["summary" := JNull]> Sample.cv_object))
    = validate_Cv Sample.any_text Sample.any_text
        (JObj (delete "summary" Sample.cv_object)).
Proof.
  assert ("summary" ∈ ["summary"; "location"; "email"; "phone"; "website";
                        "avatar_url"]) as Hk by apply list_elem_of_here.
  split; [exact Hk|].
  destruct (optional_null_is_absent Sample.any_text Sample.any_text Sample.json_bool
              Sample.cv_object "summary") as [Hcv _].
  apply Hcv, Hk.
Defined.

Lemma list_field_null_rejected_witness :
  "skills" ∈ ["skills"; "experience"; "education"]
  ∧ validate_Cv Sample.any_text Sample.any_text
      (JObj (<["skills" := JNull]> Sample.cv_object)) = None
  ∧ validate_Cv Sample.any_text Sample.any_text
      (JObj (delete "skills" Sample.cv_object)) = Some Sample.cv_payload.
Proof.
  assert ("skills" ∈ ["skills"; "experience"; "education"]) as Hk
    by apply list_elem_of_here.
  split; [exact Hk|]. split; [|reflexivity].
  destruct (list_field_null_rejected Sample.any_text Sample.any_text Sample.json_bool
              Sample.cv_object "skills") as [Hcv _].
  apply Hcv, Hk.
Defined.

Lemma validated_lists_as_sent_witness :
  validate_Cv Sample.any_text Sample.any_text (JObj Sample.cv_object)
  = Some Sample.skilled_cv
  ∧ Sample.cv_object !! "skills" = Some (JArr (JStr <$> Cv.skills Sample.skilled_cv)).
Proof.
  split; [reflexivity|].
  destruct (validated_lists_as_sent Sample.any_text Sample.any_text Sample.json_bool
              Sample.cv_object Sample.skilled_cv Sample.project_payload) as [Hcv _].
  specialize (Hcv eq_refl).
  change (Sample.cv_object !! "skills")
    with (Some (JArr [JStr "rocq"; JStr "python"; JStr "rocq"])) in Hcv.
  cbv iota beta in Hcv.
  change (Sample.cv_object !! "skills")
    with (Some (JArr [JStr "rocq"; JStr "python"; JStr "rocq"])).
  exact (f_equal Some Hcv).
Defined.

Lemma validate_User_bounds_witness :
  validate_User Sample.json_bool Sample.json_int Sample.user_body = Some Sample.user
  ∧ (∀ n, User.age Sample.user = Some n → 0 ≤ n ≤ 120)
  ∧ (field Sample.user_body "is_active" = None → User.is_active Sample.user = true)
  ∧ field Sample.user_body "email" = Some (JStr (User.email Sample.user)).
Proof.
  split; [reflexivity|].
  apply (validate_User_bounds Sample.json_bool Sample.json_int). reflexivity.
Defined.

Lemma test_database_reports_env_witness :
  ("database_url", "DATABASE_URL")
    ∈ [("database_url", "DATABASE_URL"); ("database_name", "DATABASE_NAME")]
  ∧ Sample.env !! "DATABASE_URL" = Some "mongodb://localhost"
  ∧ ∀ db, test_database Sample.handle_name Sample.listing Sample.prefix Sample.env db
          !! "database_url" = Some (VStr "✅ Set").
Proof.
  assert (("database_url", "DATABASE_URL")
            ∈ [("database_url", "DATABASE_URL"); ("database_name", "DATABASE_NAME")])
    as Hk by apply list_elem_of_here.
  split; [exact Hk|]. split; [reflexivity|]. intros db.
  destruct (test_database_reports_env Sample.handle_name Sample.listing Sample.prefix
              Sample.env db "database_url" "DATABASE_URL" Hk) as [_ Hset].
  apply (Hset "mongodb://localhost"); [reflexivity | discriminate].
Defined.
